(** * The BORME entity-extraction and temporal-resolution engine

    A shallow embedding of [src/utils/spanishCompanyParserWithTerms.js]
    (class [SpanishCompanyTermsParser]) and of the name-matching and
    temporal-resolution methods of [SpanishCompaniesService], followed by
    the properties of the engine's specification that were checked on it.

    Conventions of the embedding.
    - A JavaScript string whose code units all lie below 0x100 (Latin-1,
      which holds every Spanish letter) is a Rocq [string], one [ascii]
      per code unit.  Literals that contain accented letters are written
      [L1 "..."]: [L1] decodes the two-byte UTF-8 sequences of the source
      file into single Latin-1 code units.  Characters of the source's
      tables that lie outside Latin-1 (the dashes of a few character
      classes, the euro sign) can never occur in such a string and are
      left out of the classes.
    - [null]/[undefined] arguments are [None]; a thrown [TypeError] is an
      explicit [Throws] result.
    - An officer array of [parsed_details] that the result takes over is
      one object shared with the argument: [parseSpanishCompanyData]
      returns, besides its result, the argument as the call leaves it.
    - The [lastIndex] field of the shared global-flag [registryPattern] is
      the state threaded through every function that calls [test] on it;
      console output is what a computation returns besides its result.
    - The vocabulary table ([terms.json]) is a value of type [Terms];
      the file itself is not part of the sources. *)

From Stdlib Require Import String Ascii List Bool Arith NArith ZArith Lia.
From Stdlib Require Import Permutation Sorted.
Import ListNotations.
Local Open Scope string_scope.

(* ================================================================== *)
(** * JavaScript string primitives on Latin-1 strings *)
(* ================================================================== *)

Module JS.

Definition code (c : ascii) : N := N_of_ascii c.

Definition inRange (lo hi : N) (c : ascii) : bool :=
  ((lo <=? code c) && (code c <=? hi))%N.

Definition isCode (n : N) (c : ascii) : bool := (code c =? n)%N.

(** [\d], [\w] and [\s] of a non-unicode regular expression. *)
Definition isDigit (c : ascii) : bool := inRange 48 57 c.
Definition isUpperAZ (c : ascii) : bool := inRange 65 90 c.
Definition isLowerAZ (c : ascii) : bool := inRange 97 122 c.
Definition isWordChar (c : ascii) : bool :=
  isDigit c || isUpperAZ c || isLowerAZ c || isCode 95 c.
Definition isSpace (c : ascii) : bool :=
  inRange 9 13 c || isCode 32 c || isCode 160 c.
Definition isLineTerminator (c : ascii) : bool := isCode 10 c || isCode 13 c.

(** Latin-1 letters with a case partner inside Latin-1. *)
Definition isLowerL1 (c : ascii) : bool :=
  isLowerAZ c || (inRange 224 254 c && negb (isCode 247 c)).
Definition isUpperL1 (c : ascii) : bool :=
  isUpperAZ c || (inRange 192 222 c && negb (isCode 215 c)).

Definition upper1 (c : ascii) : ascii :=
  if isLowerL1 c then ascii_of_N (code c - 32) else c.
Definition lower1 (c : ascii) : ascii :=
  if isUpperL1 c then ascii_of_N (code c + 32) else c.

(** [String.prototype.toUpperCase]: the sharp s becomes "SS"; y-diaeresis
    and the micro sign, whose capitals lie outside Latin-1, are kept. *)
Fixpoint toUpperCase (s : string) : string :=
  match s with
  | EmptyString => EmptyString
  | String c r =>
      if isCode 223 c then String "S" (String "S" (toUpperCase r))
      else String (upper1 c) (toUpperCase r)
  end.

Fixpoint toLowerCase (s : string) : string :=
  match s with
  | EmptyString => EmptyString
  | String c r => String (lower1 c) (toLowerCase r)
  end.

(** Decoding of the UTF-8 bytes of a source literal into Latin-1. *)
Fixpoint L1 (s : string) : string :=
  match s with
  | String c (String d r as tl) =>
      if isCode 194 c then String d (L1 r)
      else if isCode 195 c then String (ascii_of_N (code d + 64)) (L1 r)
      else String c (L1 tl)
  | _ => s
  end.

Definition isEmpty (s : string) : bool :=
  match s with EmptyString => true | _ => false end.

(** Truthiness of a string value. *)
Definition truthy (s : string) : bool := negb (isEmpty s).

Fixpoint rev_acc (s acc : string) : string :=
  match s with
  | EmptyString => acc
  | String c r => rev_acc r (String c acc)
  end.
Definition srev (s : string) : string := rev_acc s EmptyString.

Fixpoint trimStart (s : string) : string :=
  match s with
  | String c r => if isSpace c then trimStart r else s
  | EmptyString => EmptyString
  end.
Definition trimEnd (s : string) : string := srev (trimStart (srev s)).
Definition trim (s : string) : string := trimEnd (trimStart s).

Fixpoint startsWith (p s : string) : bool :=
  match p, s with
  | EmptyString, _ => true
  | String a p', String b s' => Ascii.eqb a b && startsWith p' s'
  | _, EmptyString => false
  end.

(** [s.indexOf(p)], [None] for -1. *)
Fixpoint indexOf (p s : string) : option nat :=
  if startsWith p s then Some 0
  else match s with
       | EmptyString => None
       | String _ r => option_map S (indexOf p r)
       end.

Definition includes (s p : string) : bool :=
  match indexOf p s with Some _ => true | None => false end.

Definition endsWith (s p : string) : bool := startsWith (srev p) (srev s).

Fixpoint take (n : nat) (s : string) : string :=
  match n, s with
  | S n', String c r => String c (take n' r)
  | _, _ => EmptyString
  end.
Fixpoint drop (n : nat) (s : string) : string :=
  match n, s with
  | S n', String _ r => drop n' r
  | _, _ => s
  end.

(** [s.substring(a, b)] for [a <= b]. *)
Definition slice (a b : nat) (s : string) : string := take (b - a) (drop a s).

(** [s.split(c)] for a one-character separator, and [s.split(/[...]/)]
    for a character class: both cut at every separator character. *)
Fixpoint splitAcc (sep : ascii -> bool) (s cur : string) : list string :=
  match s with
  | EmptyString => [srev cur]
  | String c r =>
      if sep c then srev cur :: splitAcc sep r EmptyString
      else splitAcc sep r (String c cur)
  end.
Definition splitOn (sep : ascii -> bool) (s : string) : list string :=
  splitAcc sep s EmptyString.

(** [s.split(/\s+/)]: cut at every maximal run of white space. *)
Fixpoint splitRunsAcc (sep : ascii -> bool) (s cur : string) (inRun : bool)
  : list string :=
  match s with
  | EmptyString => [srev cur]
  | String c r =>
      if sep c then
        if inRun then splitRunsAcc sep r cur true
        else srev cur :: splitRunsAcc sep r EmptyString true
      else splitRunsAcc sep r (String c cur) false
  end.
Definition splitSpaces (s : string) : list string :=
  splitRunsAcc isSpace s EmptyString false.

Fixpoint join (sep : string) (l : list string) : string :=
  match l with
  | [] => EmptyString
  | [x] => x
  | x :: r => x ++ sep ++ join sep r
  end.

(** [s.padStart(2, '0')]. *)
Definition padStart2 (s : string) : string :=
  match String.length s with
  | 0 => "00"
  | 1 => "0" ++ s
  | _ => s
  end.

Fixpoint anyChar (p : ascii -> bool) (s : string) : bool :=
  match s with
  | EmptyString => false
  | String c r => p c || anyChar p r
  end.

Fixpoint allChars (p : ascii -> bool) (s : string) : bool :=
  match s with
  | EmptyString => true
  | String c r => p c && allChars p r
  end.

(** Decimal rendering of an array index, as the template literal does. *)
Definition digitChar (n : nat) : ascii := ascii_of_nat (48 + n).
Fixpoint natToStringAux (fuel n : nat) (acc : string) : string :=
  match fuel with
  | 0 => acc
  | S f =>
      let acc' := String (digitChar (n mod 10)) acc in
      if (n <? 10)%nat then acc' else natToStringAux f (n / 10) acc'
  end.
Definition natToString (n : nat) : string := natToStringAux (S n) n EmptyString.

End JS.
Import JS.

(* ================================================================== *)
(** * A backtracking matcher for the regular expressions of the source *)
(* ================================================================== *)

(** The matcher follows the ECMAScript backtracking semantics: alternatives
    and repetitions are tried in priority order and the first complete
    match wins.  A pattern of the source is written as a term of [re]. *)

Module Regex.

Inductive re : Type :=
| Chr (p : ascii -> bool)                       (* one code unit in a class *)
| Eps
| Seq (a b : re)
| Alt (a b : re)
| Rep (greedy : bool) (lo : nat) (hi : option nat) (a : re)
| Grp (i : nat) (a : re)                        (* capturing group number i *)
| Bol (multiline : bool)                        (* ^ *)
| Eol (multiline : bool)                        (* $ *)
| WordB                                         (* \b *)
| Look (a : re).                                (* (?=a) *)

(** A position in the subject: index, previous code unit, remaining text
    and the captures made so far as (group, (start, end)). *)
Record mstate : Type := MState {
  pos : nat;
  prev : option ascii;
  rest : string;
  caps : list (nat * (nat * nat))
}.

Definition setCaps (st : mstate) (c : list (nat * (nat * nat))) : mstate :=
  MState (pos st) (prev st) (rest st) c.

Definition isWordOpt (o : option ascii) : bool :=
  match o with Some c => isWordChar c | None => false end.
Definition isTermOpt (o : option ascii) : bool :=
  match o with Some c => isLineTerminator c | None => false end.
Definition next (st : mstate) : option ascii :=
  match rest st with String c _ => Some c | EmptyString => None end.

Definition dropCap (i : nat) (c : list (nat * (nat * nat))) :=
  filter (fun e => negb (fst e =? i)%nat) c.

Definition hiZero (hi : option nat) : bool :=
  match hi with Some 0 => true | _ => false end.

(** The loop of a repetition of a pattern whose matcher is [ma]: [lo]
    iterations are still owed, at most [hi] may follow, and an iteration
    that is not owed must consume something.  Every such iteration moves
    forward, so the length of the remaining text, plus what is owed,
    bounds the number of turns. *)
Fixpoint repLoop (ma : mstate -> (mstate -> option mstate) -> option mstate)
  (greedy : bool) (k : mstate -> option mstate)
  (fuel lo : nat) (hi : option nat) (st : mstate) {struct fuel}
  : option mstate :=
  match fuel with
  | 0 => None
  | S fuel' =>
      if hiZero hi then k st
      else
        let iter :=
          ma st (fun st' =>
            if ((lo =? 0) && (pos st' =? pos st))%nat then None
            else repLoop ma greedy k fuel' (Nat.pred lo)
                         (option_map Nat.pred hi) st') in
        if (0 <? lo)%nat then iter
        else if greedy then
          match iter with Some res => Some res | None => k st end
        else
          match k st with Some res => Some res | None => iter end
  end.

Fixpoint m (r : re) (st : mstate) (k : mstate -> option mstate) {struct r}
  : option mstate :=
  match r with
  | Chr p =>
      match rest st with
      | String c r' =>
          if p c then k (MState (S (pos st)) (Some c) r' (caps st)) else None
      | EmptyString => None
      end
  | Eps => k st
  | Seq a b => m a st (fun st' => m b st' k)
  | Alt a b =>
      match m a st k with
      | Some res => Some res
      | None => m b st k
      end
  | Rep greedy lo hi a =>
      repLoop (m a) greedy k (S (lo + String.length (rest st))) lo hi st
  | Grp i a =>
      m a st (fun st' =>
        k (setCaps st' ((i, (pos st, pos st')) :: dropCap i (caps st'))))
  | Bol ml =>
      match prev st with
      | None => k st
      | Some c => if ml && isLineTerminator c then k st else None
      end
  | Eol ml =>
      match next st with
      | None => k st
      | Some c => if ml && isLineTerminator c then k st else None
      end
  | WordB =>
      if xorb (isWordOpt (prev st)) (isWordOpt (next st)) then k st else None
  | Look a =>
      match m a st Some with
      | Some st' => k (setCaps st (caps st'))
      | None => None
      end
  end.

(** Leftmost match starting at or after the position [st]. *)
Fixpoint searchFrom (r : re) (p : nat) (pv : option ascii) (s : string)
  : option (nat * mstate) :=
  match m r (MState p pv s []) Some with
  | Some e => Some (p, e)
  | None =>
      match s with
      | EmptyString => None
      | String c s' => searchFrom r (S p) (Some c) s'
      end
  end.

(** The last code unit before index [i]. *)
Fixpoint prevAt (i : nat) (pv : option ascii) (s : string) : option ascii :=
  match i, s with
  | S i', String c s' => prevAt i' (Some c) s'
  | _, _ => pv
  end.

(** The result of [exec]: start and end index and the captures. *)
Record rmatch : Type := RMatch {
  mstart : nat;
  mend : nat;
  mcaps : list (nat * (nat * nat))
}.

(** [RegExpBuiltinExec] with [lastIndex = i]: [None] when [i] is past the
    end of the subject or nothing matches from there on. *)
Definition execAt (r : re) (s : string) (i : nat) : option rmatch :=
  if (String.length s <? i)%nat then None
  else
    match searchFrom r i (prevAt i None s) (drop i s) with
    | Some (b, e) => Some (RMatch b (pos e) (caps e))
    | None => None
    end.

Definition text (s : string) (x : rmatch) : string :=
  slice (mstart x) (mend x) s.

(** The text of capture [i], [None] when the group did not take part. *)
Definition group (s : string) (x : rmatch) (i : nat) : option string :=
  match find (fun e => (fst e =? i)%nat) (mcaps x) with
  | Some (_, (a, b)) => Some (slice a b s)
  | None => None
  end.

(** [re.test(s)] and [s.match(re)] for a pattern without the global flag. *)
Definition test (r : re) (s : string) : bool :=
  match execAt r s 0 with Some _ => true | None => false end.
Definition exec (r : re) (s : string) : option rmatch := execAt r s 0.

(** All matches of a global pattern, as [String.prototype.replace] and
    [match] enumerate them: after an empty match the index moves on by
    one. *)
Fixpoint allMatches (fuel : nat) (r : re) (s : string) (i : nat)
  : list rmatch :=
  match fuel with
  | 0 => []
  | S fuel' =>
      match execAt r s i with
      | None => []
      | Some x =>
          x :: allMatches fuel' r s
                 (if (mend x =? mstart x)%nat then S (mend x) else mend x)
      end
  end.

Definition matchAll (r : re) (s : string) : list rmatch :=
  allMatches (S (S (String.length s))) r s 0.

(** [s.replace(re, f)] for a global pattern and a replacer function of
    the matched text. *)
Fixpoint rebuild (f : rmatch -> string) (s : string) (from : nat)
  (ms : list rmatch) : string :=
  match ms with
  | [] => drop from s
  | x :: ms' => slice from (mstart x) s ++ f x ++ rebuild f s (mend x) ms'
  end.

Definition replaceAll (r : re) (f : rmatch -> string) (s : string) : string :=
  rebuild f s 0 (matchAll r s).

(** [s.replace(re, f)] for a pattern without the global flag. *)
Definition replaceFirst (r : re) (f : rmatch -> string) (s : string) : string :=
  match exec r s with
  | None => s
  | Some x => slice 0 (mstart x) s ++ f x ++ drop (mend x) s
  end.

(** ** Pattern constructors *)

Definition any : re := Chr (fun _ => true).
(** [.] without the [s] flag. *)
Definition dot : re := Chr (fun c => negb (isLineTerminator c)).
Definition chr (c : ascii) : re := Chr (Ascii.eqb c).
(** A literal character under the [i] flag. *)
Definition chrI (c : ascii) : re := Chr (fun x => Ascii.eqb (upper1 x) (upper1 c)).
(** A class under the [i] flag matches what is a case variant of a member. *)
Definition ci (p : ascii -> bool) : ascii -> bool :=
  fun c => p c || p (upper1 c) || p (lower1 c).

Fixpoint lit (s : string) : re :=
  match s with
  | EmptyString => Eps
  | String c EmptyString => chr c
  | String c r => Seq (chr c) (lit r)
  end.
Fixpoint litI (s : string) : re :=
  match s with
  | EmptyString => Eps
  | String c EmptyString => chrI c
  | String c r => Seq (chrI c) (litI r)
  end.

Fixpoint seq (l : list re) : re :=
  match l with
  | [] => Eps
  | [a] => a
  | a :: r => Seq a (seq r)
  end.
Fixpoint alt (l : list re) : re :=
  match l with
  | [] => Chr (fun _ => false)
  | [a] => a
  | a :: r => Alt a (alt r)
  end.

Definition star (a : re) : re := Rep true 0 None a.
Definition plus (a : re) : re := Rep true 1 None a.
Definition opt (a : re) : re := Rep true 0 (Some 1) a.
Definition starLazy (a : re) : re := Rep false 0 None a.
Definition plusLazy (a : re) : re := Rep false 1 None a.
Definition rep (lo hi : nat) (a : re) : re := Rep true lo (Some hi) a.

Definition ws : re := Chr isSpace.
Definition digit : re := Chr isDigit.

End Regex.

(* ================================================================== *)
(** * SpanishCompaniesService: name matching and temporal resolution *)
(* ================================================================== *)

Module Service.
Import Regex.

(** Canonical decomposition followed by the removal of the combining
    marks U+0300..U+036F, on a Latin-1 code unit: an accented letter
    becomes its base letter. *)
Definition stripDiacritic (c : ascii) : ascii :=
  if inRange 192 197 c then "A"%char
  else if isCode 199 c then "C"%char
  else if inRange 200 203 c then "E"%char
  else if inRange 204 207 c then "I"%char
  else if isCode 209 c then "N"%char
  else if inRange 210 214 c then "O"%char
  else if inRange 217 220 c then "U"%char
  else if isCode 221 c then "Y"%char
  else if inRange 224 229 c then "a"%char
  else if isCode 231 c then "c"%char
  else if inRange 232 235 c then "e"%char
  else if inRange 236 239 c then "i"%char
  else if isCode 241 c then "n"%char
  else if inRange 242 246 c then "o"%char
  else if inRange 249 252 c then "u"%char
  else if isCode 253 c || isCode 255 c then "y"%char
  else c.

Fixpoint removeDiacritics (s : string) : string :=
  match s with
  | EmptyString => EmptyString
  | String c r => String (stripDiacritic c) (removeDiacritics r)
  end.

(** [/^(DON|DOÑA|D\.|DÑA\.)\s+/gi] *)
Definition titlePrefix : re :=
  seq [Bol false;
       Grp 1 (alt [litI "DON"; litI (L1 "DOÑA"); litI "D."; litI (L1 "DÑA.")]);
       plus ws].

(** [/\s+(JR\.?|SR\.?|III?|IV)$/gi] *)
Definition generationSuffix : re :=
  seq [plus ws;
       Grp 1 (alt [Seq (litI "JR") (opt (chr "."));
                   Seq (litI "SR") (opt (chr "."));
                   Seq (litI "II") (opt (chrI "I"));
                   litI "IV"]);
       Eol false].

Definition normalizeSpanishName (name : option string) : string :=
  match name with
  | None => ""
  | Some n =>
      if isEmpty n then ""
      else
        let s := trim (toUpperCase n) in
        let s := replaceAll (plus ws) (fun _ => " ") s in
        let s := replaceAll titlePrefix (fun _ => "") s in
        let s := replaceAll generationSuffix (fun _ => "") s in
        trim (removeDiacritics s)
  end.

(** [parts.slice(-2)] *)
Definition lastTwo (l : list string) : list string :=
  skipn (List.length l - 2) l.

Definition extractNameParts (name : option string) : list string :=
  let normalized := normalizeSpanishName name in
  let parts :=
    filter (fun w => (1 <? String.length w)%nat)
           (splitOn (isCode 32) normalized) in
  if (List.length parts <=? 3)%nat then parts
  else
    match parts with
    | firstName :: _ => firstName :: lastTwo parts
    | [] => parts
    end.

Definition inb (x : string) (l : list string) : bool :=
  existsb (String.eqb x) l.

(** [new Set(l)] keeps the first occurrence of every element. *)
Fixpoint dedup (seen l : list string) : list string :=
  match l with
  | [] => []
  | x :: r => if inb x seen then dedup seen r else x :: dedup (x :: seen) r
  end.
Definition toSet (l : list string) : list string := dedup [] l.

(** [parts[parts.length - k]] *)
Definition fromEnd (k : nat) (l : list string) : option string :=
  nth_error l (List.length l - k).

Definition optStrEq (a b : option string) : bool :=
  match a, b with
  | Some x, Some y => String.eqb x y
  | None, None => true
  | _, _ => false
  end.

Definition nameGiven (name : option string) : bool :=
  match name with Some n => truthy n | None => false end.

(** The counts on which [areNamesSimilar] decides: the sizes of the
    intersection and of the union of the two sets of parts. *)
Definition intersection (p1 p2 : list string) : list string :=
  filter (fun x => inb x (toSet p2)) (toSet p1).
Definition unionSize (p1 p2 : list string) : nat :=
  List.length (toSet (toSet p1 ++ toSet p2)).

(** [areNamesSimilar] with the default threshold 0.5.  The quotient
    [intersection.length / union.size] of two integers no larger than 6
    is at least 0.5 exactly when twice the numerator reaches the
    denominator, so the floating-point test is the integer test. *)
Definition areNamesSimilar (name1 name2 : option string) : bool :=
  if negb (nameGiven name1) || negb (nameGiven name2) then false
  else
    let normalized1 := normalizeSpanishName name1 in
    let normalized2 := normalizeSpanishName name2 in
    if String.eqb normalized1 normalized2 then true
    else
      let parts1 := extractNameParts name1 in
      let parts2 := extractNameParts name2 in
      if (List.length parts1 <? 2)%nat || (List.length parts2 <? 2)%nat
      then String.eqb normalized1 normalized2
      else
        let inter := List.length (intersection parts1 parts2) in
        let uni := unionSize parts1 parts2 in
        let lastName1Match :=
          (2 <=? List.length parts1)%nat && (2 <=? List.length parts2)%nat &&
          optStrEq (fromEnd 1 parts1) (fromEnd 1 parts2) in
        let lastName2Match :=
          (3 <=? List.length parts1)%nat && (3 <=? List.length parts2)%nat &&
          optStrEq (fromEnd 2 parts1) (fromEnd 2 parts2) in
        if lastName1Match && lastName2Match then true
        else (uni <=? 2 * inter)%nat || (2 <=? inter)%nat.

(** ** Temporal state resolution *)

(** An officer record as the remote service returns it; an absent field
    is [None]. *)
Record RawOfficer : Type := {
  o_name : option string;
  o_position : option string;
  o_event_type : option string;
  o_status : option string;
  o_removal_date : option string;
  o_date : option string;
  o_appointment_date : option string;
  o_event_date : option string;
  o_company_name : option string
}.

(** The keys of [officersByCategory], in the order of [Object.entries]. *)
Inductive Category : Type :=
| nombramientos | reelecciones | ceses_dimisiones | revocaciones.

Definition categories : list Category :=
  [nombramientos; reelecciones; ceses_dimisiones; revocaciones].

Definition truthyOpt (o : option string) : bool :=
  match o with Some s => truthy s | None => false end.

(** [o.f === lit] *)
Definition fieldIs (o : option string) (v : string) : bool :=
  match o with Some s => String.eqb s v | None => false end.

(** [o.position?.toLowerCase().includes(w)] *)
Definition positionIncludes (o : RawOfficer) (w : string) : bool :=
  match o_position o with
  | Some p => includes (toLowerCase p) w
  | None => false
  end.

Definition inCategory (c : Category) (o : RawOfficer) : bool :=
  match c with
  | nombramientos =>
      fieldIs (o_event_type o) "nombramientos" ||
      fieldIs (o_status o) "active" ||
      (negb (fieldIs (o_status o) "ceased") && negb (truthyOpt (o_removal_date o)))
  | reelecciones =>
      fieldIs (o_event_type o) "reelecciones" || positionIncludes o "reelecc"
  | ceses_dimisiones =>
      fieldIs (o_event_type o) "ceses_dimisiones" ||
      fieldIs (o_status o) "ceased" ||
      truthyOpt (o_removal_date o) ||
      positionIncludes o "ces" ||
      positionIncludes o "dimis"
  | revocaciones =>
      fieldIs (o_event_type o) "revocaciones" || positionIncludes o "revoc"
  end.

Record OfficerEvent : Type := {
  e_name : option string;
  e_normalizedName : string;
  e_position : option string;
  e_date : string;
  e_type : Category;
  e_isAppointment : bool;
  e_isCessation : bool;
  e_rawData : RawOfficer
}.

(** [a || b || c || '1900-01-01'] *)
Definition firstTruthy (l : list (option string)) (dflt : string) : string :=
  match find truthyOpt l with
  | Some (Some s) => s
  | _ => dflt
  end.

Definition isCat (a b : Category) : bool :=
  match a, b with
  | nombramientos, nombramientos | reelecciones, reelecciones
  | ceses_dimisiones, ceses_dimisiones | revocaciones, revocaciones => true
  | _, _ => false
  end.

Definition mkEvent (category : Category) (officer : RawOfficer) : OfficerEvent :=
  {| e_name := o_name officer;
     e_normalizedName := normalizeSpanishName (o_name officer);
     e_position := o_position officer;
     e_date := firstTruthy [o_date officer; o_appointment_date officer;
                            o_event_date officer] "1900-01-01";
     e_type := category;
     e_isAppointment := isCat category nombramientos || isCat category reelecciones;
     e_isCessation := isCat category ceses_dimisiones || isCat category revocaciones;
     e_rawData := officer |}.

(** The string a template literal gives for a possibly absent value. *)
Definition show (o : option string) : string :=
  match o with Some s => s | None => "undefined" end.

Definition eventKey (e : OfficerEvent) : string :=
  e_normalizedName e ++ "_" ++ show (e_position e).

(** The events in the order in which the two nested [forEach] loops make
    them: category by category, officers in input order. *)
Definition collectEvents (rawOfficers : list RawOfficer) : list OfficerEvent :=
  flat_map (fun c => map (mkEvent c) (filter (inCategory c) rawOfficers))
           categories.

(** [officerTimeline]: a [Map] from key to the array of its events, in
    insertion order. *)
Fixpoint pushEvent (key : string) (e : OfficerEvent)
  (tl : list (string * list OfficerEvent)) : list (string * list OfficerEvent) :=
  match tl with
  | [] => [(key, [e])]
  | (k, evs) :: r =>
      if String.eqb k key then (k, (evs ++ [e])%list) :: r
      else (k, evs) :: pushEvent key e r
  end.

Definition officerTimeline (rawOfficers : list RawOfficer)
  : list (string * list OfficerEvent) :=
  fold_left (fun tl e => pushEvent (eventKey e) e tl)
            (collectEvents rawOfficers) [].

Section Resolver.

(** The time value of [new Date(s)], [None] when it is [NaN].  Which
    strings parse, beyond the ISO forms, is left to the implementation by
    the language standard. *)
Variable timeValue : string -> option Z.

(** [(a, b) => new Date(a.date) - new Date(b.date)]; a [NaN] result
    counts as 0 in [Array.prototype.sort]. *)
Definition compareDates (a b : OfficerEvent) : Z :=
  match timeValue (e_date a), timeValue (e_date b) with
  | Some x, Some y => (x - y)%Z
  | _, _ => 0%Z
  end.

(** [events.sort(compare)]: the sort is stable, so for a consistent
    comparison its result is the one of a stable insertion sort. *)
Fixpoint insertEvent (x : OfficerEvent) (l : list OfficerEvent)
  : list OfficerEvent :=
  match l with
  | [] => [x]
  | y :: r =>
      if (compareDates x y <=? 0)%Z then x :: y :: r
      else y :: insertEvent x r
  end.

Definition sortEvents (l : list OfficerEvent) : list OfficerEvent :=
  fold_right insertEvent [] l.

(** The three variables of the [events.forEach] loop. *)
Record Status : Type := {
  isCurrentlyActive : bool;
  latestActiveDate : option string;
  latestAppointmentType : option Category
}.

Definition initialStatus : Status :=
  {| isCurrentlyActive := false; latestActiveDate := None;
     latestAppointmentType := None |}.

Definition stepStatus (s : Status) (event : OfficerEvent) : Status :=
  if e_isAppointment event then
    {| isCurrentlyActive := true;
       latestActiveDate := Some (e_date event);
       latestAppointmentType := Some (e_type event) |}
  else if e_isCessation event then
    {| isCurrentlyActive := false;
       latestActiveDate := latestActiveDate s;
       latestAppointmentType := latestAppointmentType s |}
  else s.

Definition resolveStatus (events : list OfficerEvent) : Status :=
  fold_left stepStatus events initialStatus.

Record Position : Type := {
  p_position : option string;
  p_since : option string;
  p_type : option Category;
  p_company : option string
}.

Record OfficerState : Type := {
  s_name : option string;
  s_positions : list Position;
  s_history : list OfficerEvent
}.

(** [currentState]: a [Map] keyed by the officer's name. *)
Fixpoint updateState (name : option string)
  (f : OfficerState -> OfficerState) (cs : list OfficerState)
  : list OfficerState :=
  match cs with
  | [] => [f {| s_name := name; s_positions := []; s_history := [] |}]
  | s :: r =>
      if optStrEq (s_name s) name then f s :: r
      else s :: updateState name f r
  end.

(** The body of [officerTimeline.forEach]; a group always holds at least
    one event. *)
Definition processGroup (cs : list OfficerState)
  (group : string * list OfficerEvent) : list OfficerState :=
  let events := sortEvents (snd group) in
  match events with
  | [] => cs
  | first :: _ =>
      let st := resolveStatus events in
      let officerName := e_name first in
      let cs1 :=
        if isCurrentlyActive st then
          updateState officerName (fun s =>
            {| s_name := s_name s;
               s_positions := s_positions s ++
                 [{| p_position := e_position first;
                     p_since := latestActiveDate st;
                     p_type := latestAppointmentType st;
                     p_company := o_company_name (e_rawData first) |}];
               s_history := s_history s |}) cs
        else cs in
      updateState officerName (fun s =>
        {| s_name := s_name s;
           s_positions := s_positions s;
           s_history := s_history s ++ events |}) cs1
  end.

Record OfficerAnalysis : Type := {
  currentOfficers : list OfficerState;
  allOfficers : list OfficerState;
  timeline : list OfficerEvent;
  totalEvents : nat
}.

Definition calculateCurrentOfficerState (rawOfficers : list RawOfficer)
  : OfficerAnalysis :=
  let tl := sortEvents (collectEvents rawOfficers) in
  let currentState := fold_left processGroup (officerTimeline rawOfficers) [] in
  {| currentOfficers :=
       filter (fun o => (0 <? List.length (s_positions o))%nat) currentState;
     allOfficers := currentState;
     timeline := tl;
     totalEvents := List.length tl |}.

End Resolver.

(** The time value of the date-only ISO form [YYYY-MM-DD], in
    milliseconds since the epoch (days from the civil date). *)
Definition digitsValue (s : string) : option Z :=
  if isEmpty s || negb (allChars isDigit s) then None
  else Some (fold_left (fun acc c => (acc * 10 + (Z.of_N (code c) - 48))%Z)
                       (list_ascii_of_string s) 0%Z).

Definition isLeap (y : Z) : bool :=
  ((y mod 4 =? 0) && (negb (y mod 100 =? 0) || (y mod 400 =? 0)))%Z.

Definition daysInMonth (y mo : Z) : Z :=
  if (mo =? 2)%Z then (if isLeap y then 29 else 28)%Z
  else if ((mo =? 4) || (mo =? 6) || (mo =? 9) || (mo =? 11))%Z then 30%Z
  else 31%Z.

Definition daysFromCivil (y mo d : Z) : Z :=
  let y' := (if mo <=? 2 then y - 1 else y)%Z in
  let era := (y' / 400)%Z in
  let yoe := (y' - era * 400)%Z in
  let mp := ((mo + 9) mod 12)%Z in
  let doy := ((153 * mp + 2) / 5 + d - 1)%Z in
  let doe := (yoe * 365 + yoe / 4 - yoe / 100 + doy)%Z in
  (era * 146097 + doe - 719468)%Z.

Definition isoTimeValue (s : string) : option Z :=
  match splitOn (isCode 45) s with
  | [ys; ms; ds] =>
      if ((String.length ys =? 4) && (String.length ms =? 2) &&
          (String.length ds =? 2))%nat then
        match digitsValue ys, digitsValue ms, digitsValue ds with
        | Some y, Some mo, Some d =>
            if ((1 <=? mo) && (mo <=? 12) && (1 <=? d) &&
                (d <=? daysInMonth y mo))%Z
            then Some (daysFromCivil y mo d * 86400000)%Z
            else None
        | _, _, _ => None
        end
      else None
  | _ => None
  end.

End Service.

(** ** The matching rule in the specification's words

    Exact equality after normalization is a match; otherwise, on the
    significant parts (all tokens of a name of at most three tokens, else
    the first token and the last two), a pair matches if both final
    surname tokens agree, or the Jaccard similarity of the two sets of
    parts is at least 0.5, or they share at least two tokens.  It is kept
    apart from [areNamesSimilar] to be compared with it. *)
Module Claimed.
Import Service.

Definition significantParts (name : option string) : list string :=
  let tokens :=
    filter truthy (splitOn (isCode 32) (normalizeSpanishName name)) in
  if (List.length tokens <=? 3)%nat then tokens
  else match tokens with
       | firstName :: _ => firstName :: lastTwo tokens
       | [] => tokens
       end.

Definition similar (name1 name2 : option string) : bool :=
  let parts1 := significantParts name1 in
  let parts2 := significantParts name2 in
  String.eqb (normalizeSpanishName name1) (normalizeSpanishName name2) ||
  ((2 <=? List.length parts1)%nat && (3 <=? List.length parts2)%nat &&
   optStrEq (fromEnd 1 parts1) (fromEnd 1 parts2) &&
   optStrEq (fromEnd 2 parts1) (fromEnd 2 parts2)) ||
  (unionSize parts1 parts2 <=? 2 * List.length (intersection parts1 parts2))%nat ||
  (2 <=? List.length (intersection parts1 parts2))%nat.

End Claimed.

(* ================================================================== *)
(** * SpanishCompanyTermsParser *)
(* ================================================================== *)

Module Parser.
Import Regex.

(** The vocabulary table [this.terms] with its two required lists. *)
Record Terms : Type := {
  alwaysTopLevel : list string;
  officersPositions : list string
}.

(** ** Parser state

    The parser object is shared by all calls.  What a call can change on
    it is [registryPattern.lastIndex]: a computation takes the value of
    [lastIndex] and returns its result, the new [lastIndex] and what it
    printed.  Of the console output the model keeps the banners with
    which the four extraction strategies announce themselves. *)
Record Run (A : Type) : Type := MkRun {
  value : A;
  lastIndex : nat;
  printed : list string
}.
Arguments MkRun {A} value lastIndex printed.
Arguments value {A} r.
Arguments lastIndex {A} r.
Arguments printed {A} r.

Definition M (A : Type) : Type := nat -> Run A.
Definition ret {A : Type} (a : A) : M A := fun li => MkRun a li [].
Definition bind {A B : Type} (c : M A) (f : A -> M B) : M B :=
  fun li =>
    let r := c li in
    let r' := f (value r) (lastIndex r) in
    MkRun (value r') (lastIndex r') (printed r ++ printed r')%list.

Notation "x <- c ;; k" := (bind c (fun x => k))
  (at level 61, c at next level, right associativity).
Notation "c ;;; k" := (bind c (fun _ => k))
  (at level 61, right associativity).

(** [console.log(banner)] *)
Definition log (banner : string) : M unit := fun li => MkRun tt li [banner].

(** [names.filter(p)] for a predicate that may touch the state. *)
Fixpoint filterM {A : Type} (p : A -> M bool) (l : list A) : M (list A) :=
  match l with
  | [] => ret []
  | x :: r =>
      b <- p x ;;
      r' <- filterM p r ;;
      ret (if b then x :: r' else r')
  end.

(** A [for ... of] loop that threads an accumulator. *)
Fixpoint foldM {A B : Type} (f : B -> A -> M B) (l : list A) (b : B) : M B :=
  match l with
  | [] => ret b
  | x :: r => b' <- f b x ;; foldM f r b'
  end.

(** Membership in a literal string of characters. *)
Fixpoint inStr (s : string) (c : ascii) : bool :=
  match s with
  | EmptyString => false
  | String d r => Ascii.eqb c d || inStr r c
  end.

(** [\s*] and [\s+] between the words of a phrase. *)
Fixpoint phraseWith (sep : re) (words : list string) : re :=
  match words with
  | [] => Eps
  | [w] => litI w
  | w :: r => Seq (litI w) (Seq sep (phraseWith sep r))
  end.

(** ** [this.registryPattern]

    [/\b[ST]\s+\d+\s*,\s*[LFH]\s+[A-Z]*\s*\d+\s*,?\s*[SF]?\s*\d*\s*,?\s*H?\s*[A-Z]*\s*\d*\s*,?\s*I\/A\s+\d+\s*\([^)]+\)\./g] *)
Definition registryPattern : re :=
  seq [WordB; Chr (inStr "ST"); plus ws; plus digit; star ws; chr ",";
       star ws; Chr (inStr "LFH"); plus ws; star (Chr isUpperAZ); star ws;
       plus digit; star ws; opt (chr ","); star ws; opt (Chr (inStr "SF"));
       star ws; star digit; star ws; opt (chr ","); star ws; opt (chr "H");
       star ws; star (Chr isUpperAZ); star ws; star digit; star ws;
       opt (chr ","); star ws; lit "I/A"; plus ws; plus digit; star ws;
       chr "("; plus (Chr (fun c => negb (Ascii.eqb c ")"))); chr ")";
       chr "."].

(** [this.registryPattern.test(s)]: the search starts at [lastIndex],
    which a success moves to the end of the match and a failure resets. *)
Definition registryTest (s : string) : M bool :=
  fun li =>
    match execAt registryPattern s li with
    | Some x => MkRun true (mend x) []
    | None => MkRun false 0 []
    end.

(** [s.match(this.registryPattern)]: with the global flag the search
    starts at 0 whatever [lastIndex] was, collects every match and leaves
    [lastIndex] at 0. *)
Definition registryMatch (s : string) : M (list string) :=
  fun _ => MkRun (map (text s) (matchAll registryPattern s)) 0 [].

(** ** Business-activity filter *)

Definition businessKeywords : list string :=
  map L1
    ["cnae"; "actividad"; "objeto social"; "industria"; "comercio";
     "servicios"; "representación"; "gestión"; "asesoramiento";
     "explotación"; "venta"; "distribución"; "fabricación"; "producción";
     "construcción"; "hostelería"; "restaurante"; "hotel"; "turismo";
     "inmobiliaria"; "consultoría"; "ingeniería"; "tecnología"; "software";
     "informática"; "telecomunicaciones"; "transporte"; "logística";
     "almacenamiento"; "importación"; "exportación"; "mayorista";
     "minorista"; "intermediarios"; "corretaje"; "mediación"; "artículo";
     "estatutos"; "modificación"; "ampliación"; "reducción"].

Definition businessPatterns : list re :=
  [ (* /\b(la|el|los|las)\s+(industria|comercio|venta|distribución|fabricación)/i *)
    seq [WordB; Grp 1 (alt (map litI ["la"; "el"; "los"; "las"])); plus ws;
         Grp 2 (alt (map litI (map L1 ["industria"; "comercio"; "venta";
                                       "distribución"; "fabricación"])))];
    (* /\b(toda\s+clase\s+de|sin\s+excepción|sin\s+limitación)/i *)
    seq [WordB;
         Grp 1 (alt [phraseWith (plus ws) ["toda"; "clase"; "de"];
                     phraseWith (plus ws) ["sin"; L1 "excepción"];
                     phraseWith (plus ws) ["sin"; L1 "limitación"]])];
    (* /\b(actividades|operaciones|servicios|productos)\b/i *)
    seq [WordB;
         Grp 1 (alt (map litI ["actividades"; "operaciones"; "servicios";
                               "productos"]));
         WordB];
    (* /\b(por\s+cuenta\s+propia|de\s+terceros)\b/i *)
    seq [WordB;
         Grp 1 (alt [phraseWith (plus ws) ["por"; "cuenta"; "propia"];
                     phraseWith (plus ws) ["de"; "terceros"]]);
         WordB] ].

Definition isBusinessActivityDescription (text : string) : bool :=
  if isEmpty text then false
  else
    let lowerText := toLowerCase text in
    let hasBusinessKeywords := existsb (includes lowerText) businessKeywords in
    let hasCnaeCode := test (seq [litI "cnae"; star ws; plus digit]) text in
    let isTooLong := (100 <? String.length text)%nat in
    let hasBusinessPatterns := existsb (fun p => test p text) businessPatterns in
    hasBusinessKeywords || hasCnaeCode || isTooLong || hasBusinessPatterns.

(** ** Name validation *)

(** The class of the characters a name may not hold: a digit or one of
    the signs at, hash, dollar, percent, caret, ampersand, star, round,
    square and curly brackets, underscore, plus, equals, bar, backslash,
    colon, semicolon, both quotes, angle brackets, question mark, comma,
    period, slash. *)
Definition forbiddenInName (c : ascii) : bool :=
  isDigit c || inStr "@#$%^&*()_+=[]{}|\:;'<>?,./" c || isCode 34 c.

(** [/^[A-ZÁÉÍÓÚÑ]/] *)
Definition isCapital (c : ascii) : bool :=
  isUpperAZ c || inStr (L1 "ÁÉÍÓÚÑ") c.

Definition startsWithCapital (text : string) : bool :=
  match text with
  | String c _ => isCapital c
  | EmptyString => false
  end.

Definition nameWords (text : string) : list string :=
  filter truthy (splitSpaces text).

Definition businessWords : list string :=
  ["cnae"; "actividad"; "industria"; "comercio"; "objeto"; "social";
   "servicios"].

Section WithTerms.
Variable terms : Terms.

Definition isValidSpanishName (text : string) : M bool :=
  if isEmpty text || (String.length text <? 3)%nat then ret false
  else if (List.length (nameWords text) <? 2)%nat then ret false
  else if anyChar forbiddenInName text then ret false
  else if (50 <? String.length text)%nat then ret false
  else
    isRegistry <- registryTest text ;;
    if isRegistry then ret false
    else if existsb (fun pos => String.eqb (toUpperCase pos) (toUpperCase text))
                    (officersPositions terms) then ret false
    else if isBusinessActivityDescription text then ret false
    else if existsb (includes (toLowerCase text)) businessWords then ret false
    else if negb (startsWithCapital text) then ret false
    else ret true.

(** ** Cleaning of a candidate name *)

Definition bormeTermsToRemove : list string :=
  map L1
    ["ESTATUTARIAS"; "ESTATUTARIOS"; "NOMBRAMIENTOS"; "REELECCIONES";
     "CESES"; "DIMISIONES"; "REVOCACIONES"; "OTROS CONCEPTOS";
     "DATOS REGISTRALES"; "CONSTITUCION"; "CONSTITUCIÓN"; "DISOLUCION";
     "DISOLUCIÓN"; "AMPLIACION"; "AMPLIACIÓN"; "REDUCCION"; "REDUCCIÓN";
     "LIQUIDADOR"; "LIQUIDADORES"].

Definition removeTerm (cleaned term : string) : string :=
  (* new RegExp(`\\.\\s*${term}\\s*\\.?\\s*$`, 'i') *)
  let cleaned :=
    replaceFirst (seq [chr "."; star ws; litI term; star ws; opt (chr ".");
                       star ws; Eol false]) (fun _ => "") cleaned in
  (* new RegExp(`\\s+${term}\\s*\\.?\\s*$`, 'i') *)
  replaceFirst (seq [plus ws; litI term; star ws; opt (chr "."); star ws;
                     Eol false]) (fun _ => "") cleaned.

Definition cleanOfficerName (name : string) : string :=
  if isEmpty name then ""
  else
    let cleaned := replaceAll (chr "010") (fun _ => " ") name in
    let cleaned := replaceAll (chr "013") (fun _ => " ") cleaned in
    let cleaned := replaceAll (plus ws) (fun _ => " ") cleaned in
    let cleaned := toUpperCase (trim cleaned) in
    let cleaned := fold_left removeTerm bormeTermsToRemove cleaned in
    (* .replace(/[.;,]+$/, '').replace(/^\s*[-–—]\s*/, '').trim() *)
    let cleaned :=
      replaceFirst (seq [plus (Chr (inStr ".;,")); Eol false])
                   (fun _ => "") cleaned in
    let cleaned :=
      replaceFirst (seq [Bol false; star ws; chr "-"; star ws])
                   (fun _ => "") cleaned in
    trim cleaned.

(** ** Resolution of a position string *)

Definition fallbackPatterns : list (re * string) :=
  let dotOpt := opt (chr ".") in
  let uAcute := Chr (ci (inStr (L1 "UÚ"))) in
  [ (seq [litI "ADM"; dotOpt; star ws; litI "SOLID"; dotOpt], "Administrador Solidario");
    (seq [litI "ADM"; dotOpt; star ws; litI "MANCOM"; dotOpt], "Administrador Mancomunado");
    (seq [litI "ADM"; dotOpt; star ws; litI "MANCO"; dotOpt], "Administrador Mancomunado");
    (seq [litI "ADM"; dotOpt; star ws; uAcute; litI "NICO"; dotOpt], L1 "Administrador Único");
    (seq [Bol false; litI "ADM"; dotOpt; Eol false], "Administrador");
    (litI "ADMINISTRADOR", "Administrador");
    (litI "LIQUIDADOR", "Liquidador");
    (litI "PRESIDENTE", "Presidente");
    (litI "SECRETARIO", "Secretario");
    (litI "CONSEJERO", "Consejero");
    (litI "GERENTE", "Gerente");
    (litI "DIRECTOR", "Director");
    (litI "APODERADO", "Apoderado");
    (seq [litI "APODER"; dotOpt], "Apoderado");
    (seq [litI "SOCIO"; plus ws; uAcute; litI "NICO"], L1 "Socio Único") ].

Definition findOfficerPositionFallback (positionText : string) : option string :=
  let cleanText :=
    toUpperCase
      (replaceFirst (seq [plus (Chr (fun c => inStr ".:" c || isSpace c));
                          Eol false])
                    (fun _ => "") (trim positionText)) in
  option_map snd (find (fun p => test (fst p) cleanText) fallbackPatterns).

Definition commonPatterns : list (string * string) :=
  [ ("ADM. SOLID.", "Administrador Solidario");
    ("ADM SOLID", "Administrador Solidario");
    ("ADM. MANCOM.", "Administrador Mancomunado");
    ("ADM MANCOM", "Administrador Mancomunado");
    ("ADM. MANCO.", "Administrador Mancomunado");
    ("ADM MANCO", "Administrador Mancomunado");
    (L1 "ADM. ÚNICO", L1 "Administrador Único");
    ("ADM UNICO", L1 "Administrador Único");
    ("ADM.", "Administrador");
    ("ADMINISTRADOR", "Administrador");
    ("LIQUIDADOR", "Liquidador");
    ("PRESIDENTE", "Presidente");
    ("SECRETARIO", "Secretario");
    ("CONSEJERO", "Consejero");
    ("GERENTE", "Gerente");
    ("DIRECTOR", "Director");
    ("APODERADO", "Apoderado");
    ("APODER.", "Apoderado");
    ("APODER", "Apoderado");
    (L1 "SOCIO ÚNICO", L1 "Socio Único");
    ("SOCIO UNICO", L1 "Socio Único") ].

(** [arr.find(p)] followed by a truthiness test on the string found. *)
Definition findTruthy (p : string -> bool) (l : list string) : option string :=
  match find p l with
  | Some s => if truthy s then Some s else None
  | None => None
  end.

Definition collapseSpaces (s : string) : string :=
  replaceAll (plus ws) (fun _ => " ") s.

Definition inb (x : string) (l : list string) : bool :=
  existsb (String.eqb x) l.

Definition optStrEq (a b : option string) : bool :=
  match a, b with
  | Some x, Some y => String.eqb x y
  | None, None => true
  | _, _ => false
  end.

Definition findOfficerPosition (positionText : string) : option string :=
  let cleanText :=
    toUpperCase
      (replaceFirst (seq [plus (Chr (fun c => inStr ":" c || isSpace c));
                          Eol false])
                    (fun _ => "") (trim positionText)) in
  let cleanTextNoPeriod :=
    replaceFirst (seq [chr "."; Eol false]) (fun _ => "") cleanText in
  if isBusinessActivityDescription positionText then None
  else
    let exactMatch :=
      findTruthy (fun pos =>
        let posUpper := toUpperCase pos in
        let cleanUpper := toUpperCase cleanText in
        let cleanNoPeriodUpper := toUpperCase cleanTextNoPeriod in
        String.eqb posUpper cleanUpper ||
        String.eqb posUpper cleanNoPeriodUpper ||
        String.eqb posUpper (collapseSpaces cleanUpper) ||
        String.eqb posUpper (collapseSpaces cleanNoPeriodUpper))
        (officersPositions terms) in
    match exactMatch with
    | Some pos => Some pos
    | None =>
        match find (fun p => String.eqb cleanText (fst p) ||
                             includes cleanText (fst p)) commonPatterns with
        | Some (_, position) => Some position
        | None =>
            let partialMatch :=
              findTruthy (fun pos =>
                let posUpper := toUpperCase pos in
                (includes cleanText posUpper && (3 <? String.length posUpper)%nat) ||
                (includes posUpper cleanText && (3 <? String.length cleanText)%nat))
                (officersPositions terms) in
            match partialMatch with
            | Some pos => Some pos
            | None => findOfficerPositionFallback positionText
            end
        end
    end.

(** ** Smart splitting of an entry *)

Definition abbreviations : list string :=
  map L1
    ["ADM"; "ADMIN"; "APOD"; "APODER"; "CONS"; "CONSJ"; "CONSEJERO"; "PRES";
     "PRESID"; "PRESIDENT"; "SEC"; "SECR"; "SECRETARIO"; "TES"; "TESOR";
     "TESORERO"; "VICE"; "VICEPR"; "VICEPRES"; "DIR"; "DTOR"; "DIRECTOR";
     "GER"; "GERENTE"; "LIQ"; "LIQUID"; "MANCOM"; "MANCO"; "SOLID";
     "SOLIDA"; "SOLIDAR"; "UNICO"; "ÚNICO"].

(** The abbreviations joined into one alternative, after a word boundary
    and before a period and a captured run of blanks, with the flags
    [gi]. *)
Definition abbrevPattern : re :=
  seq [WordB; Grp 1 (alt (map litI abbreviations)); chr ".";
       Grp 2 (star (chr " "))].

(** [/\b\d{1,2}\.\d{1,2}\.\d{2,4}\b/g] *)
Definition datePattern : re :=
  seq [WordB; rep 1 2 digit; chr "."; rep 1 2 digit; chr "."; rep 2 4 digit;
       WordB].

(** [/[ST]\s+\d+\s*,\s*[LFH]\s+[A-Z]*\s*\d+[^.]*\([^)]*\)\./g] *)
Definition splitRegistryPattern : re :=
  seq [Chr (inStr "ST"); plus ws; plus digit; star ws; chr ","; star ws;
       Chr (inStr "LFH"); plus ws; star (Chr isUpperAZ); star ws; plus digit;
       star (Chr (fun c => negb (Ascii.eqb c ".")));
       chr "("; star (Chr (fun c => negb (Ascii.eqb c ")"))); chr ")";
       chr "."].

(** [/\b\d{1,3}(?:\.\d{3})*,\d{2}\b/g] *)
Definition decimalPattern : re :=
  seq [WordB; rep 1 3 digit; star (Seq (chr ".") (rep 3 3 digit)); chr ",";
       rep 2 2 digit; WordB].

Definition placeholder (n : nat) : string :=
  "###PLACEHOLDER" ++ natToString n ++ "###".

(** One [protectedText.replace(pattern, match => ...)] pass: every match
    is pushed on [placeholders] and replaced by the placeholder that
    carries its index. *)
Fixpoint protectMatches (s : string) (from : nat) (ms : list rmatch)
  (placeholders : list string) : string * list string :=
  match ms with
  | [] => (drop from s, placeholders)
  | x :: ms' =>
      let ph := placeholder (List.length placeholders) in
      let (tail, placeholders') :=
        protectMatches s (mend x) ms' (placeholders ++ [text s x])%list in
      (slice from (mstart x) s ++ ph ++ tail, placeholders')
  end.

Definition protect (pattern : re) (acc : string * list string)
  : string * list string :=
  protectMatches (fst acc) 0 (matchAll pattern (fst acc)) (snd acc).

(** The replacement text of [String.prototype.replace] for a string
    pattern: the dollar sign followed by a dollar sign, an ampersand, a
    backquote or a quote stands for a dollar sign, the matched text, the
    text before it and the text after it. *)
Fixpoint substitute (repl matched before after : string) : string :=
  match repl with
  | String "$" (String c r as tl) =>
      if Ascii.eqb c "$" then String "$" (substitute r matched before after)
      else if Ascii.eqb c "&" then matched ++ substitute r matched before after
      else if Ascii.eqb c "`" then before ++ substitute r matched before after
      else if Ascii.eqb c "'" then after ++ substitute r matched before after
      else String "$" (substitute tl matched before after)
  | String c r => String c (substitute r matched before after)
  | EmptyString => EmptyString
  end.

(** [s.replace(pat, repl)] for a string pattern: the first occurrence. *)
Definition replaceString (s pat repl : string) : string :=
  match indexOf pat s with
  | None => s
  | Some i =>
      let before := take i s in
      let after := drop (i + String.length pat) s in
      before ++ substitute repl pat before after ++ after
  end.

(** [placeholders.forEach((original, index) => restored = ...)] *)
Fixpoint restoreFrom (index : nat) (placeholders : list string)
  (restored : string) : string :=
  match placeholders with
  | [] => restored
  | original :: r =>
      restoreFrom (S index) r
        (replaceString restored (placeholder index) original)
  end.

Definition protectAll (fullEntry : string) : string * list string :=
  protect decimalPattern
    (protect splitRegistryPattern
       (protect datePattern
          (protect abbrevPattern (fullEntry, [])))).

Definition smartSplitBormeEntry (fullEntry : string) : list string :=
  let (protectedText, placeholders) := protectAll fullEntry in
  filter truthy
    (map (fun s => restoreFrom 0 placeholders (trim s))
         (splitOn (isCode 46) protectedText)).

(** ** Top-level categories *)

Definition sameCategory (cleanSection category : string) : bool :=
  String.eqb cleanSection category ||
  String.eqb (toLowerCase cleanSection) (toLowerCase category).

Definition findTopLevelCategoryExact (section : string) : option string :=
  findTruthy (sameCategory (trim section)) (alwaysTopLevel terms).

Definition constitutionContent (cleanSection : string) : bool :=
  test (seq [Bol false; phraseWith (chrI " ") ["Comienzo"; "de"; "operaciones"];
             star ws; chr ":"]) cleanSection ||
  test (seq [Bol false; litI "Domicilio"; star ws; chr ":"]) cleanSection ||
  test (seq [Bol false; litI "Capital"; star ws; chr ":"]) cleanSection ||
  test (seq [Bol false; phraseWith (chrI " ") ["Objeto"; "social"];
             star ws; chr ":"]) cleanSection.

Definition findTopLevelCategory (section : string) : option string :=
  let cleanSection := trim section in
  if constitutionContent cleanSection then Some (L1 "Constitución")
  else
    match findTruthy (sameCategory cleanSection) (alwaysTopLevel terms) with
    | Some m => Some m
    | None =>
        findTruthy (fun category =>
          let categoryLower := toLowerCase category in
          let sectionLower := toLowerCase cleanSection in
          includes sectionLower categoryLower ||
          (String.eqb category "Modificaciones estatutarias" &&
           (includes sectionLower "modificacion" ||
            includes sectionLower "estatutaria")) ||
          (String.eqb category "Ampliacion del objeto social" &&
           includes sectionLower "ampliacion" && includes sectionLower "objeto") ||
          (String.eqb category "Cambio de objeto social" &&
           includes sectionLower "cambio" && includes sectionLower "objeto"))
          (alwaysTopLevel terms)
    end.

(** ** Officers *)

Record Officer : Type := {
  name : string;
  position : string;
  raw_entry : option string;
  category : string
}.

(** [result.officers], with its keys in the order of the literal. *)
Record Officers : Type := {
  nombramientos : list Officer;
  reelecciones : list Officer;
  revocaciones : list Officer;
  ceses_dimisiones : list Officer
}.

Definition noOfficers : Officers :=
  {| nombramientos := []; reelecciones := []; revocaciones := [];
     ceses_dimisiones := [] |}.

Inductive CategoryKey : Type :=
| KNombramientos | KReelecciones | KRevocaciones | KCesesDimisiones.

Definition getCategoryKey (category : string) : CategoryKey :=
  if String.eqb category "Nombramientos" then KNombramientos
  else if String.eqb category "Reelecciones" then KReelecciones
  else if String.eqb category "Revocaciones" then KRevocaciones
  else if String.eqb category "Ceses/Dimisiones" then KCesesDimisiones
  else KNombramientos.

(** [officers[key].push(...more)] *)
Definition pushOfficers (key : CategoryKey) (more : list Officer)
  (o : Officers) : Officers :=
  match key with
  | KNombramientos =>
      {| nombramientos := nombramientos o ++ more;
         reelecciones := reelecciones o; revocaciones := revocaciones o;
         ceses_dimisiones := ceses_dimisiones o |}
  | KReelecciones =>
      {| nombramientos := nombramientos o;
         reelecciones := reelecciones o ++ more;
         revocaciones := revocaciones o;
         ceses_dimisiones := ceses_dimisiones o |}
  | KRevocaciones =>
      {| nombramientos := nombramientos o; reelecciones := reelecciones o;
         revocaciones := revocaciones o ++ more;
         ceses_dimisiones := ceses_dimisiones o |}
  | KCesesDimisiones =>
      {| nombramientos := nombramientos o; reelecciones := reelecciones o;
         revocaciones := revocaciones o;
         ceses_dimisiones := ceses_dimisiones o ++ more |}
  end.

(** [Object.values(officers).flat()] *)
Definition allOfficers (o : Officers) : list Officer :=
  (nombramientos o ++ reelecciones o ++ revocaciones o ++ ceses_dimisiones o)%list.

Definition getTotalOfficers (o : Officers) : nat :=
  List.length (nombramientos o) + List.length (reelecciones o) +
  List.length (revocaciones o) + List.length (ceses_dimisiones o).

Fixpoint dedupOfficers (seen : list string) (l : list Officer) : list Officer :=
  match l with
  | [] => []
  | officer :: r =>
      let key := name officer ++ "-" ++ position officer in
      if existsb (String.eqb key) seen then dedupOfficers seen r
      else officer :: dedupOfficers (key :: seen) r
  end.

Definition deduplicateOfficers (o : Officers) : Officers :=
  {| nombramientos := dedupOfficers [] (nombramientos o);
     reelecciones := dedupOfficers [] (reelecciones o);
     revocaciones := dedupOfficers [] (revocaciones o);
     ceses_dimisiones := dedupOfficers [] (ceses_dimisiones o) |}.

(** [namesPart.split(/[;,]/).map(cleanOfficerName).filter(name =>
    name && name.length > 2 && this.isValidSpanishName(name))] *)
Definition validName (n : string) : M bool :=
  if truthy n && (2 <? String.length n)%nat then isValidSpanishName n
  else ret false.

Definition splitNames (namesPart : string) : list string :=
  map cleanOfficerName (splitOn (inStr ";,") namesPart).

Definition extractNames (namesPart : string) : M (list string) :=
  filterM validName (splitNames namesPart).

Definition mkOfficers (names : list string) (pos : string)
  (raw : option string) (cat : string) : list Officer :=
  map (fun n => {| name := n; position := pos; raw_entry := raw;
                   category := cat |}) names.

(** [s.substring(0, colonIndex).trim()] and [s.substring(colonIndex + 1).trim()] *)
Definition beforeColon (s : string) (colonIndex : nat) : string :=
  trim (take colonIndex s).
Definition afterColon (s : string) (colonIndex : nat) : string :=
  trim (drop (S colonIndex) s).

Definition parseOfficersFromSection (section category : string)
  : M (list Officer) :=
  match indexOf ":" section with
  | None => ret []
  | Some colonIndex =>
      let positionPart := beforeColon section colonIndex in
      let namesPart := afterColon section colonIndex in
      match findOfficerPosition positionPart with
      | Some officerPosition =>
          if truthy officerPosition && truthy namesPart then
            let names :=
              filter (fun n => truthy n && (2 <? String.length n)%nat)
                     (splitNames namesPart) in
            valid <- filterM isValidSpanishName names ;;
            ret (mkOfficers valid officerPosition (Some section) category)
          else ret []
      | None => ret []
      end
  end.

(** The loop [for (i = startIndex; i < sections.length && i < startIndex + 5; i++)]
    of [parseOfficersFromSections] over the sections from [startIndex] on. *)
Fixpoint officersFromSections (budget : nat) (sections : list string)
  (category : string) (officers : list Officer) : M (list Officer) :=
  match budget, sections with
  | S budget', section :: r =>
      isRegistry <- registryTest section ;;
      if isRegistry then ret officers
      else
        match findTopLevelCategory section with
        | Some _ => ret officers
        | None =>
            sectionOfficers <- parseOfficersFromSection section category ;;
            officersFromSections budget' r category
              (officers ++ sectionOfficers)%list
        end
  | _, _ => ret officers
  end.

Definition parseOfficersFromSections (sections : list string)
  (startIndex : nat) (category : string) : M (list Officer) :=
  officersFromSections 5 (skipn startIndex sections) category [].

(** [/Socio\s+[uú]nico\s*:\s*(.+)/i] and [/Socio\s+[uú]nico\s+(.+)/i] *)
Definition socioPatterns : list re :=
  let socio := seq [litI "Socio"; plus ws; Chr (ci (inStr (L1 "uú")));
                    litI "nico"] in
  [ seq [socio; star ws; chr ":"; star ws; Grp 1 (plus dot)];
    seq [socio; plus ws; Grp 1 (plus dot)] ].

Definition socioUnico (socioName section : string) : Officer :=
  {| name := socioName; position := L1 "Socio único";
     raw_entry := Some section;
     category := L1 "Declaración de unipersonalidad" |}.

(** The inner [for (const pattern of socioPatterns)] loop: [Some] when it
    returns from the function. *)
Fixpoint trySocioPatterns (patterns : list re) (section : string)
  : M (option Officer) :=
  match patterns with
  | [] => ret None
  | pattern :: r =>
      match exec pattern section with
      | Some x =>
          let socioName :=
            cleanOfficerName
              (match group section x 1 with Some g => g | None => "" end) in
          ok <- validName socioName ;;
          if ok then ret (Some (socioUnico socioName section))
          else trySocioPatterns r section
      | None => trySocioPatterns r section
      end
  end.

Fixpoint socioFromSections (budget : nat) (isFirst : bool)
  (sections : list string) : M (list Officer) :=
  match budget, sections with
  | S budget', section :: r =>
      isRegistry <- registryTest section ;;
      if isRegistry then ret []
      else
        match findTopLevelCategory section with
        | Some _ => ret []
        | None =>
            found <- trySocioPatterns socioPatterns section ;;
            match found with
            | Some officer => ret [officer]
            | None =>
                if isFirst then
                  let potentialName := cleanOfficerName section in
                  if truthy potentialName then
                    ok <- isValidSpanishName potentialName ;;
                    if ok then
                      (* [!this.findTopLevelCategory(section)] holds here *)
                      isRegistry' <- registryTest section ;;
                      if negb isRegistry'
                      then ret [socioUnico potentialName section]
                      else socioFromSections budget' false r
                    else socioFromSections budget' false r
                  else socioFromSections budget' false r
                else socioFromSections budget' false r
            end
        end
  | _, _ => ret []
  end.

Definition parseSocioUnicoFromSections (sections : list string)
  (startIndex : nat) : M (list Officer) :=
  socioFromSections 5 true (skipn startIndex sections).

(** ** The parse result *)

(** [parseConstitutionFromAllSections]: the fields that were found. *)
Record ConstitutionInfo : Type := {
  c_constitution_date : option string;
  c_address : option string;
  c_capital : option string;
  c_activity : option string;
  c_cnae_code : option string
}.

Record NameChange : Type := {
  newName : string;
  changeType : string;
  rawMatch : string;
  nc_date : option string
}.

Inductive DissolutionType : Type :=
| voluntary | judicial | bankruptcy | unknown.

(** The [details] object of a corporate event. *)
Inductive Details : Type :=
| NoDetails                                      (* null *)
| Amount (amount : string)
| NewAddress (newAddress : string)
| NewName (newName : string)
| ConstitutionDetails (constitutionDate initialCapital : option string)
| Dissolution (dissolutionType : DissolutionType).

Record CorporateEvent : Type := {
  ev_type : string;
  ev_category : string;
  ev_categoryLabel : string;
  ev_icon : string;
  ev_date : option string;
  ev_details : Details;
  isLifecycleEvent : bool;
  isCapitalEvent : bool;
  isStructuralEvent : bool
}.

Record BormeResult : Type := {
  officers : Officers;
  registryData : option string;
  categories : list string;
  constitution : option ConstitutionInfo;
  nameChanges : list NameChange;
  currentName : option string;
  previousNames : list string;
  newAddress : option string;
  corporateEvents : list CorporateEvent
}.

Definition withOfficers (f : Officers -> Officers) (r : BormeResult)
  : BormeResult :=
  {| officers := f (officers r); registryData := registryData r;
     categories := categories r; constitution := constitution r;
     nameChanges := nameChanges r; currentName := currentName r;
     previousNames := previousNames r; newAddress := newAddress r;
     corporateEvents := corporateEvents r |}.

Definition pushCategory (c : string) (r : BormeResult) : BormeResult :=
  {| officers := officers r; registryData := registryData r;
     categories := categories r ++ [c]; constitution := constitution r;
     nameChanges := nameChanges r; currentName := currentName r;
     previousNames := previousNames r; newAddress := newAddress r;
     corporateEvents := corporateEvents r |}.

Definition setConstitution (c : ConstitutionInfo) (r : BormeResult)
  : BormeResult :=
  {| officers := officers r; registryData := registryData r;
     categories := categories r; constitution := Some c;
     nameChanges := nameChanges r; currentName := currentName r;
     previousNames := previousNames r; newAddress := newAddress r;
     corporateEvents := corporateEvents r |}.

Definition setNewAddress (a : string) (r : BormeResult) : BormeResult :=
  {| officers := officers r; registryData := registryData r;
     categories := categories r; constitution := constitution r;
     nameChanges := nameChanges r; currentName := currentName r;
     previousNames := previousNames r; newAddress := Some a;
     corporateEvents := corporateEvents r |}.

(** ** Strategy: inline categories *)

Definition officerCategories : list string :=
  ["Ceses/Dimisiones"; "Nombramientos"; "Reelecciones"; "Revocaciones";
   L1 "Constitución"].

(** The words that end a block in the look-aheads below, after the
    category names: [Datos\s*registrales|Disolución|Extinción|$]. *)
Definition blockEnds : list re :=
  [phraseWith (star ws) ["Datos"; "registrales"]; litI (L1 "Disolución");
   litI (L1 "Extinción"); Eol false].

(** The pattern that [extractInlineOfficerCategories] builds for a
    category: the category, a period, white space, a lazily captured
    block, and a look-ahead for another category or a block end. *)
Definition inlineCategoryPattern (category : string) : re :=
  let others := filter (fun c => negb (String.eqb c category)) officerCategories in
  seq [litI category; chr "."; star ws; Grp 1 (starLazy any);
       Look (Seq (star ws) (alt (map litI others ++ blockEnds)))].

(** The pattern for a position of the vocabulary: special characters are
    taken literally, a period becomes optional and a run of white space
    becomes [\s*]. *)
Fixpoint escapedPosition (inSpace : bool) (p : string) : list re :=
  match p with
  | EmptyString => []
  | String c r =>
      if isSpace c then
        if inSpace then escapedPosition true r
        else star ws :: escapedPosition true r
      else if Ascii.eqb c "." then opt (chr ".") :: escapedPosition false r
      else chrI c :: escapedPosition false r
  end.

Definition inlinePositionPattern (position : string) : re :=
  seq (escapedPosition false position ++
       [star ws; chr ":"; star ws;
        Grp 1 (plusLazy (Chr (fun c => negb (Ascii.eqb c "."))));
        Look (Alt (Seq (chr ".") (Alt ws (Eol false)))
                  (Seq (star ws)
                       (alt (map litI officerCategories ++
                             phraseWith (star ws) ["Otros"; "conceptos"] ::
                             blockEnds))))]).

Definition groupOr (s : string) (x : rmatch) (i : nat) : string :=
  match group s x i with Some g => g | None => "" end.

Definition parseOfficersFromInlineContentFallback (content category : string)
  : M (list Officer) :=
  let parts := filter truthy (map trim (splitOn (isCode 46) content)) in
  foldM (fun officers part =>
    isRegistry <- registryTest part ;;
    if isRegistry then ret officers
    else
      match indexOf ":" part with
      | Some (S i) =>
          let colonIndex := S i in
          let positionPart := beforeColon part colonIndex in
          let namesPart := afterColon part colonIndex in
          match findOfficerPosition positionPart with
          | Some officerPosition =>
              if truthy officerPosition && truthy namesPart &&
                 negb (isBusinessActivityDescription namesPart) then
                names <- extractNames namesPart ;;
                ret (officers ++ mkOfficers names officerPosition (Some part) category)%list
              else ret officers
          | None => ret officers
          end
      | _ => ret officers
      end) parts [].

Definition parseOfficersFromInlineContent (content category : string)
  : M (list Officer) :=
  let normalizedContent := trim (collapseSpaces content) in
  officers <-
    foldM (fun officers position =>
      foldM (fun officers x =>
        let namesPart := trim (groupOr normalizedContent x 1) in
        if truthy namesPart && negb (isBusinessActivityDescription namesPart) then
          match findOfficerPosition position with
          | Some officerPosition =>
              if truthy officerPosition then
                names <- extractNames namesPart ;;
                ret (officers ++
                     mkOfficers names officerPosition
                       (Some (position ++ ": " ++ namesPart)%string) category)%list
              else ret officers
          | None => ret officers
          end
        else ret officers)
        (matchAll (inlinePositionPattern position) normalizedContent) officers)
      (officersPositions terms) [] ;;
  match officers with
  | [] => parseOfficersFromInlineContentFallback content category
  | _ => ret officers
  end.

Definition bannerInline : string := "=== EXTRACTING INLINE OFFICER CATEGORIES ===".
Definition bannerSections : string := "=== ANALYZING SECTIONS ===".
Definition bannerDirect : string := "=== DIRECT PATTERN EXTRACTION ===".
Definition bannerProximity : string := "=== PROXIMITY EXTRACTION ===".

Definition extractInlineOfficerCategories (fullEntry : string)
  (result : BormeResult) : M BormeResult :=
  log bannerInline ;;;
  foldM (fun result category =>
    let categoryKey := getCategoryKey category in
    foldM (fun result x =>
      let categoryContent := trim (groupOr fullEntry x 1) in
      if truthy categoryContent then
        officers <- parseOfficersFromInlineContent categoryContent category ;;
        ret (withOfficers (pushOfficers categoryKey officers)
                          (pushCategory category result))
      else ret result)
      (matchAll (inlineCategoryPattern category) fullEntry) result)
    officerCategories result.

(** ** Strategy: section by section *)

(** [[\d.,]] *)
Definition numberChar (c : ascii) : bool := isDigit c || inStr ".," c.

(** [/(?:C\/|CALLE|AVENIDA|PLAZA|PASEO|CARRETERA|AVDA|PZA)/i] *)
Definition streetPattern : re :=
  alt (map litI ["C/"; "CALLE"; "AVENIDA"; "PLAZA"; "PASEO"; "CARRETERA";
                 "AVDA"; "PZA"]).

Definition stripFinalPeriod (s : string) : string :=
  replaceFirst (seq [chr "."; Eol false]) (fun _ => "") s.

Definition spanishDateShape : re :=
  seq [rep 1 2 digit; chr "."; rep 1 2 digit; chr "."; rep 2 4 digit].

Definition parseConstitutionFromAllSections (sections : list string)
  (startIndex endIndex : nat) : ConstitutionInfo :=
  let allConstitutionText :=
    join " " (firstn (endIndex - startIndex) (skipn startIndex sections)) in
  let capture (r : re) : option string :=
    match exec r allConstitutionText with
    | Some x => Some (groupOr allConstitutionText x 1)
    | None => None
    end in
  let orElse (a b : option string) : option string :=
    match a with Some _ => a | None => b end in
  let capitalStop :=
    Look (seq [star ws; opt (chr "."); star ws;
               alt [litI "Nombramientos"; litI (L1 "Declaración");
                    litI "Resultante"; chr "."; Eol false]]) in
  let activityStop :=
    Look (seq [star ws; opt (chr "."); star ws;
               alt [litI "Domicilio:"; litI "Capital:"; litI "Nombramientos";
                    litI (L1 "Declaración"); chr "."; Eol false]]) in
  {| c_constitution_date :=
       (* /Comienzo de operaciones\s*:\s*(\d{1,2}\.\d{1,2}\.\d{2,4})/ *)
       capture (seq [lit "Comienzo de operaciones"; star ws; chr ":"; star ws;
                     Grp 1 spanishDateShape]);
     c_address :=
       (* /Domicilio:\s*(.*?)(?=\s*\.?\s*Capital:|$)/i *)
       option_map (fun a => stripFinalPeriod (trim a))
         (capture (seq [litI "Domicilio:"; star ws; Grp 1 (starLazy dot);
                        Look (Alt (seq [star ws; opt (chr "."); star ws;
                                        litI "Capital:"])
                                  (Eol false))]));
     c_capital :=
       option_map (fun c =>
           let capital := trim c in
           if negb (includes (toLowerCase capital) "euros") &&
              negb (includes (toLowerCase capital) "euro")
           then capital ++ " Euros" else capital)
         (orElse
            (capture (seq [litI "Capital:"; star ws;
                           Grp 1 (seq [plus (Chr numberChar); star ws;
                                       litI "Euro"; opt (chrI "s")]);
                           capitalStop]))
            (orElse
               (capture (seq [litI "Capital:"; star ws;
                              Grp 1 (plus (Chr numberChar)); star ws;
                              litI "Euro"; opt (chrI "s")]))
               (capture (seq [litI "Capital:"; star ws;
                              Grp 1 (plus (Chr numberChar))]))));
     c_activity :=
       option_map (fun a => stripFinalPeriod (trim a))
         (capture (seq [litI "Objeto social:"; star ws; Grp 1 (starLazy dot);
                        activityStop]));
     c_cnae_code :=
       (* /CNAE:\s*(\d+)/i *)
       capture (seq [litI "CNAE:"; star ws; Grp 1 (plus digit)]) |}.

(** The index of the next section that is a top-level category, counted
    from the start of [sections]; their number when there is none. *)
Fixpoint nextCategoryFrom (j : nat) (sections : list string) : nat :=
  match sections with
  | [] => j
  | s :: r =>
      match findTopLevelCategoryExact s with
      | Some _ => j
      | None => nextCategoryFrom (S j) r
      end
  end.

Definition handleCategory (sections : list string) (i nextCategoryIndex : nat)
  (category : string) (result : BormeResult) : M BormeResult :=
  if inb category ["Nombramientos"; "Reelecciones"; "Revocaciones";
                   "Ceses/Dimisiones"] then
    officersData <- parseOfficersFromSections sections (S i) category ;;
    ret (withOfficers (pushOfficers (getCategoryKey category) officersData) result)
  else if String.eqb category (L1 "Declaración de unipersonalidad") then
    socioUnicoOfficers <- parseSocioUnicoFromSections sections (S i) ;;
    ret (withOfficers (pushOfficers KNombramientos socioUnicoOfficers) result)
  else if String.eqb category (L1 "Constitución") then
    let constitution :=
      parseConstitutionFromAllSections sections (S i) nextCategoryIndex in
    constitutionOfficers <-
      parseOfficersFromSections sections (S i) (L1 "Constitución") ;;
    ret (withOfficers (pushOfficers KNombramientos constitutionOfficers)
                      (setConstitution constitution result))
  else if String.eqb category "Cambio de domicilio social" then
    match nth_error sections (S i) with
    | Some next =>
        if (S i <? nextCategoryIndex)%nat && truthy next then
          let addressSection := trim next in
          if test streetPattern addressSection
          then ret (setNewAddress (stripFinalPeriod addressSection) result)
          else ret result
        else ret result
    | None => ret result
    end
  else ret result.

(** The [for (let i = 0; i < sections.length; i++)] loop; every turn moves
    [i] forward, so [sections.length] turns are enough. *)
Fixpoint sectionLoop (turns : nat) (sections : list string) (i : nat)
  (result : BormeResult) : M BormeResult :=
  match turns with
  | 0 => ret result
  | S turns' =>
      match nth_error sections i with
      | None => ret result
      | Some section =>
          match findTopLevelCategoryExact section with
          | Some category =>
              if negb (inb category (categories result)) then
                let result := pushCategory category result in
                let nextCategoryIndex :=
                  nextCategoryFrom (S i) (skipn (S i) sections) in
                result <- handleCategory sections i nextCategoryIndex
                            category result ;;
                sectionLoop turns' sections nextCategoryIndex result
              else sectionLoop turns' sections (S i) result
          | None => sectionLoop turns' sections (S i) result
          end
      end
  end.

Definition extractByCategories (fullEntry : string) (result : BormeResult)
  : M BormeResult :=
  result <- extractInlineOfficerCategories fullEntry result ;;
  let sections := smartSplitBormeEntry fullEntry in
  log bannerSections ;;;
  result <- sectionLoop (List.length sections) sections 0 result ;;
  ret (withOfficers deduplicateOfficers result).

(** ** Strategy: direct patterns *)

Definition extractByDirectPatterns (fullEntry : string) (result : BormeResult)
  : M BormeResult :=
  let lines :=
    filter truthy
      (map trim (splitOn (fun c => isCode 46 c || isLineTerminator c) fullEntry)) in
  log bannerDirect ;;;
  foldM (fun result line =>
    isRegistry <- registryTest line ;;
    if isRegistry then ret result
    else
      match findTopLevelCategory line with
      | Some _ => ret result
      | None =>
          if isBusinessActivityDescription line then ret result
          else
            match indexOf ":" line with
            | Some (S i) =>
                let colonIndex := S i in
                let positionPart := beforeColon line colonIndex in
                let namesPart := afterColon line colonIndex in
                match findOfficerPosition positionPart with
                | Some officerPosition =>
                    if truthy officerPosition && truthy namesPart &&
                       negb (isBusinessActivityDescription namesPart) then
                      names <- extractNames namesPart ;;
                      ret (withOfficers
                             (pushOfficers KNombramientos
                                (mkOfficers names officerPosition (Some line)
                                            "Nombramientos")) result)
                    else ret result
                | None => ret result
                end
            | _ => ret result
            end
      end) lines result.

(** ** Strategy: name proximity *)

Definition positionKeywords : list string :=
  map L1
    ["ADMINISTRADOR ÚNICO"; "ADMINISTRADOR UNICO"; "ADM. ÚNICO"; "ADM. UNICO";
     "ADM.ÚNICO"; "ADM.UNICO"; "ADMINISTRADOR"; "ADMINISTRADORA"; "ADM.";
     "ADMIN."; "PRESIDENTE"; "PRESIDENTA"; "PRES."; "SECRETARIO";
     "SECRETARIA"; "SECR."; "CONSEJERO"; "CONSEJERA"; "CONS."; "GERENTE";
     "GERENT."; "DIRECTOR"; "DIRECTORA"; "DIR."; "ÚNICO"; "UNICO";
     "SOLIDARIO"; "SOLIDARIA"; "SOCIO ÚNICO"; "SOCIO UNICO"].

(** [[A-ZÁÉÍÓÚÑa-záéíóúñ\s]] *)
Definition nameChar (c : ascii) : bool :=
  isUpperAZ c || isLowerAZ c || inStr (L1 "ÁÉÍÓÚÑáéíóúñ") c || isSpace c.

(** The pattern built for a keyword: the keyword between word
    boundaries, then [[\s:]*] and a captured run of name characters, with
    the flags [gi]. *)
Definition proximityPattern (keyword : string) : re :=
  seq [WordB; litI keyword; WordB;
       star (Chr (fun c => isSpace c || Ascii.eqb c ":"));
       Grp 1 (plus (Chr (ci nameChar)))].

Definition extractByNameProximity (fullEntry : string) (result : BormeResult)
  : M BormeResult :=
  log bannerProximity ;;;
  foldM (fun result keyword =>
    foldM (fun result x =>
      let potentialName := cleanOfficerName (groupOr fullEntry x 1) in
      ok <- isValidSpanishName potentialName ;;
      if ok then
        let officerPosition :=
          match findOfficerPosition keyword with
          | Some p => if truthy p then p else keyword
          | None => keyword
          end in
        let alreadyExists :=
          existsb (fun officer => String.eqb (name officer) potentialName)
                  (allOfficers (officers result)) in
        if negb alreadyExists then
          ret (withOfficers
                 (pushOfficers KNombramientos
                    [{| name := potentialName; position := officerPosition;
                        raw_entry := Some (text fullEntry x);
                        category := "Nombramientos" |}]) result)
        else ret result
      else ret result)
      (matchAll (proximityPattern keyword) fullEntry) result)
    positionKeywords result.

(** ** The strategy chain *)

Definition extractOfficersEnhanced (fullEntry : string) (result : BormeResult)
  : M BormeResult :=
  result <- extractByCategories fullEntry result ;;
  result <-
    (if (getTotalOfficers (officers result) =? 0)%nat
     then extractByDirectPatterns fullEntry result else ret result) ;;
  if (getTotalOfficers (officers result) =? 0)%nat
  then extractByNameProximity fullEntry result else ret result.

(** ** Dates *)

Definition digitValue (c : ascii) : Z := (Z.of_N (code c) - 48)%Z.

Fixpoint digitsPrefix (s : string) : list ascii :=
  match s with
  | String c r => if isDigit c then c :: digitsPrefix r else []
  | EmptyString => []
  end.

Definition isHexDigit (c : ascii) : bool :=
  isDigit c || inRange 65 70 c || inRange 97 102 c.
Definition hexValue (c : ascii) : Z :=
  if isDigit c then digitValue c
  else if inRange 65 70 c then (Z.of_N (code c) - 55)%Z
  else (Z.of_N (code c) - 87)%Z.
Fixpoint hexPrefix (s : string) : list ascii :=
  match s with
  | String c r => if isHexDigit c then c :: hexPrefix r else []
  | EmptyString => []
  end.

(** [parseInt(s)] without a radix; [None] is [NaN].  (The sign of a zero
    plays no part in the comparison made on the result.) *)
Definition parseInt (s : string) : option Z :=
  let s := trimStart s in
  let (neg, s) :=
    match s with
    | String c r =>
        if Ascii.eqb c "-" then (true, r)
        else if Ascii.eqb c "+" then (false, r)
        else (false, s)
    | EmptyString => (false, s)
    end in
  let magnitude :=
    if startsWith "0x" s || startsWith "0X" s then
      match hexPrefix (drop 2 s) with
      | [] => None
      | ds => Some (fold_left (fun a c => (a * 16 + hexValue c)%Z) ds 0%Z)
      end
    else
      match digitsPrefix s with
      | [] => None
      | ds => Some (fold_left (fun a c => (a * 10 + digitValue c)%Z) ds 0%Z)
      end in
  option_map (fun v => if neg then (- v)%Z else v) magnitude.

(** [formatSpanishDate]; the argument [None] is [null]. *)
Definition formatSpanishDate (spanishDate : option string) : option string :=
  match spanishDate with
  | None => None
  | Some d =>
      if isEmpty d then None
      else
        match splitOn (inStr "./-") d with
        | [day; month; year] =>
            let year :=
              if (String.length year =? 2)%nat then
                match parseInt year with
                | Some yearNum =>
                    if (yearNum <? 50)%Z then "20" ++ year else "19" ++ year
                | None => "19" ++ year
                end
              else year in
            Some (year ++ "-" ++ padStart2 month ++ "-" ++ padStart2 day)
        | _ => Some d
        end
  end.

Definition lastOf (l : list string) : option string :=
  match rev l with x :: _ => Some x | [] => None end.

Definition extractDateFromEntry (fullEntry : string) : option string :=
  if isEmpty fullEntry then None
  else
    (* /I\/A\s+\d+\s*\((\d{1,2}\.\d{1,2}\.\d{2,4})\)/ *)
    match exec (seq [lit "I/A"; plus ws; plus digit; star ws; chr "(";
                     Grp 1 spanishDateShape; chr ")"]) fullEntry with
    | Some x => formatSpanishDate (group fullEntry x 1)
    | None =>
        let shape (sep : ascii) :=
          Grp 1 (seq [rep 1 2 digit; chr sep; rep 1 2 digit; chr sep;
                      rep 2 4 digit]) in
        let lastMatch (sep : ascii) :=
          lastOf (map (text fullEntry) (matchAll (shape sep) fullEntry)) in
        match lastMatch "."%char with
        | Some d => formatSpanishDate (Some d)
        | None =>
            match lastMatch "/"%char with
            | Some d => formatSpanishDate (Some d)
            | None =>
                match lastMatch "-"%char with
                | Some d => formatSpanishDate (Some d)
                | None => None
                end
            end
        end
    end.

(** ** Name changes *)

(** [[A-ZÁÉÍÓÚÑÜ\s&\-.,\d]] under the flag [i] *)
Definition companyNameChar : ascii -> bool :=
  ci (fun c => isUpperAZ c || inStr (L1 "ÁÉÍÓÚÑÜ") c || isSpace c ||
               inStr "&-.," c || isDigit c).

(** [S\.?X\.?] and [S\.?L\.?X\.?] *)
Definition legalForm (letters : string) : re :=
  seq (flat_map (fun c => [chrI c; opt (chr ".")]) (list_ascii_of_string letters)).

Definition companyNameCapture (forms : list string) : re :=
  seq [plus (Chr companyNameChar); alt (map legalForm forms)].

Definition nameOrNull (o : option string) : option string :=
  match o with
  | Some d => if truthy d then Some d else None
  | None => None
  end.

Definition extractNameChanges (fullEntry : string) (result : BormeResult)
  : BormeResult :=
  if isEmpty fullEntry then result
  else
    let forms := ["SL"; "SA"; "SLL"; "SLP"] in
    let nameChangePattern :=
      seq [litI (L1 "Cambio de denominación social");
           star (Chr (fun c => Ascii.eqb c "." || isSpace c));
           Grp 1 (companyNameCapture forms)] in
    let mentionPattern :=
      seq [Grp 1 (alt (map litI (map L1 ["anteriormente"; "antes"; "denominada";
                                         "nombre anterior";
                                         "razón social anterior"])));
           star (Chr (fun c => isSpace c || Ascii.eqb c ":"));
           Grp 2 (companyNameCapture forms)] in
    let newNamePattern :=
      seq [alt (map litI (map L1 ["nueva denominación"; "nueva razón social";
                                  "pasa a denominarse"]));
           star (Chr (fun c => isSpace c || Ascii.eqb c ":"));
           Grp 1 (companyNameCapture forms)] in
    let changes1 :=
      fold_left (fun acc x =>
        let n := trim (groupOr fullEntry x 1) in
        if truthy n && (3 <? String.length n)%nat then
          (acc ++ [{| newName := n; changeType := "denominacion_social";
                      rawMatch := text fullEntry x;
                      nc_date := nameOrNull (extractDateFromEntry fullEntry) |}])%list
        else acc) (matchAll nameChangePattern fullEntry) (nameChanges result) in
    let previous :=
      fold_left (fun acc x =>
        let n := trim (groupOr fullEntry x 2) in
        if truthy n && (3 <? String.length n)%nat && negb (inb n acc)
        then (acc ++ [n])%list else acc)
        (matchAll mentionPattern fullEntry) (previousNames result) in
    let changes2 :=
      fold_left (fun acc x =>
        let n := trim (groupOr fullEntry x 1) in
        if truthy n && (3 <? String.length n)%nat &&
           negb (existsb (fun change => String.eqb (newName change) n) acc) then
          (acc ++ [{| newName := n; changeType := "nueva_denominacion";
                      rawMatch := text fullEntry x;
                      nc_date := nameOrNull (extractDateFromEntry fullEntry) |}])%list
        else acc) (matchAll newNamePattern fullEntry) changes1 in
    {| officers := officers result; registryData := registryData result;
       categories := categories result; constitution := constitution result;
       nameChanges := changes2; currentName := currentName result;
       previousNames := previous; newAddress := newAddress result;
       corporateEvents := corporateEvents result |}.

(** ** Corporate events *)

(** [this.eventCategories]: key, label, icon and event names. *)
Definition eventCategories : list (string * string * string * list string) :=
  [ ("lifecycle", "Ciclo de Vida", "lifecycle",
     map L1 ["Constitución"; "Disolución"; "Extinción";
             "Reactivación de la sociedad (Art. 242 del Reglamento del Registro Mercantil)";
             "Quiebra"; "Suspensión de pagos"; "Situación concursal"]);
    ("capital", "Capital Social", "capital",
     map L1 ["Ampliación de capital"; "Reducción de capital";
             "Acuerdo de ampliación de capital social sin ejecutar";
             "Desembolso de dividendos pasivos"; "Capital"]);
    ("structural", "Cambios Estructurales", "structural",
     map L1 ["Fusión por absorción"; "Fusión por unión"; "Escisión parcial";
             "Escisión total"; "Segregación";
             "Cesión global de activo y pasivo";
             "Transformación de sociedad"]);
    ("identity", "Identidad de la Empresa", "identity",
     map L1 ["Cambio de denominación social"; "Cambio de domicilio social";
             "Cambio de objeto social"; "Ampliacion del objeto social";
             "Modificaciones estatutarias"; "Página web de la sociedad"]);
    ("governance", "Gobierno Corporativo", "governance",
     map L1 ["Cambio del Organo de Administración";
             "Cambio del órgano de administración";
             "Cambio del Órgano de Administración";
             "Modificación de poderes"]);
    ("ownership", "Propiedad", "ownership",
     map L1 ["Declaración de unipersonalidad"; "Sociedad unipersonal";
             "Pérdida del carácter de unipersonalidad";
             "Pérdida del caracter de unipersonalidad"]);
    ("officers", "Directivos", "officers",
     ["Nombramientos"; "Reelecciones"; "Ceses/Dimisiones"; "Revocaciones";
      "Cancelaciones de oficio de nombramientos"]);
    ("administrative", "Administrativo", "administrative",
     map L1 ["Datos registrales"; "Primera inscripcion (O.M. 10/6/1.997)";
             "Reapertura hoja registral";
             "Cierre provisional de hoja registral Art.485 TRLC";
             "Cierre provisional de la hoja registral por revocación del NIF";
             "Cierre provisional hoja registral art. 137.2 Ley 43/1995 Impuesto de Sociedades";
             "Cierre provisional hoja registral por baja en el índice de Entidades Jurídicas";
             "Cierre provisional hoja registral por revocación del NIF de Entidades Jurídicas";
             "Fe de erratas:";
             "Articulo 378.5 del Reglamento del Registro Mercantil"]);
    ("other", "Otros", "other",
     map L1 ["Otros conceptos"; "Emisión de obligaciones"; "Crédito incobrable";
             "Anotación preventiva. Declaración de deudor fallido";
             "Anotación preventiva. Demanda de impugnación de acuerdos sociales";
             "Anotación preventiva. Solicitud de acta notarial de junta";
             "Anotación preventiva. Suspensión de acuerdos sociales impugnados";
             "Apertura de sucursal"; "Cierre de Sucursal"; "Sucursal";
             "Primera sucursal de sociedad extranjera";
             "Depósitos de proyectos de fusión por absorción";
             "Empresario Individual"; "Adaptación Ley 2/95";
             "Adaptación Ley 44/2015"; "Adaptación de sociedad";
             "Adaptada segun D.T. 2 apartado 2 Ley 2/95"]) ].

(** [this.eventToCategoryMap]: the entries in the order of assignment. *)
Definition eventToCategoryMap : list (string * (string * string * string)) :=
  flat_map (fun c =>
    match c with
    | (categoryKey, label, icon, events) =>
        map (fun event => (toLowerCase event, (categoryKey, label, icon))) events
    end) eventCategories.

(** [map[key] || { category: 'other', ... }]; of two assignments to one
    key the later one stands.  (A vocabulary entry is taken not to be the
    name of a property of [Object.prototype].) *)
Definition categoryInfoOf (eventType : string) : string * string * string :=
  match find (fun e => String.eqb (fst e) (toLowerCase eventType))
             (rev eventToCategoryMap) with
  | Some (_, info) => info
  | None => ("other", "Otros", "other")
  end.

Definition officerEventTypes : list string :=
  ["Nombramientos"; "N o m b r a m i e n t o s"; "Reelecciones";
   "R e e l e c c i o n e s"; "Revocaciones"; "R e v o c a c i o n e s";
   "Ceses/Dimisiones"; "C e s e s / D i m i s i o n e s";
   "Cancelaciones de oficio de nombramientos"].

(** [[\d.,]+(?:\s*(?:Euros?|€|EUR))?] under the flag [i] *)
Definition amountCapture : re :=
  seq [plus (Chr numberChar);
       opt (Seq (star ws) (Alt (Seq (litI "Euro") (opt (chrI "s"))) (litI "EUR")))].

Definition punctuationRun : re :=
  star (Chr (fun c => inStr ".:" c || isSpace c)).

(** [/Disolución[.:\s]*([^.]{0,150})/i] *)
Definition dissolutionPattern : re :=
  seq [litI (L1 "Disolución"); punctuationRun;
       Grp 1 (rep 0 150 (Chr (fun c => negb (Ascii.eqb c "."))))].

(** The text captured after the first mention of the dissolution. *)
Definition dissolutionContext (fullEntry : string) : string :=
  match exec dissolutionPattern fullEntry with
  | Some x => groupOr fullEntry x 1
  | None => ""
  end.

Definition classifyDissolution (context : string) : DissolutionType :=
  if test (litI "voluntaria") context then voluntary
  else if test (litI "judicial") context then judicial
  else if test (litI "concursal") context || test (litI "concurso") context
  then bankruptcy
  else unknown.

Definition eventDetails (eventType fullEntry : string) : Details :=
  let capture (r : re) : option string :=
    match exec r fullEntry with
    | Some x => Some (groupOr fullEntry x 1)
    | None => None
    end in
  if String.eqb eventType (L1 "Ampliación de capital") ||
     String.eqb eventType (L1 "Reducción de capital") then
    match capture (seq [litI eventType; punctuationRun; Grp 1 amountCapture]) with
    | Some a => Amount (trim a)
    | None => NoDetails
    end
  else if String.eqb eventType "Cambio de domicilio social" then
    (* /Cambio de domicilio social[.:\s]*([^.]+(?:C\/|CALLE|AVENIDA|PLAZA|PASEO)[^.]+)/i *)
    let notDot := Chr (fun c => negb (Ascii.eqb c ".")) in
    match capture (seq [litI "Cambio de domicilio social"; punctuationRun;
                        Grp 1 (seq [plus notDot;
                                    alt (map litI ["C/"; "CALLE"; "AVENIDA";
                                                   "PLAZA"; "PASEO"]);
                                    plus notDot])]) with
    | Some a => NewAddress (trim a)
    | None => NoDetails
    end
  else if String.eqb eventType (L1 "Cambio de denominación social") then
    match capture (seq [litI (L1 "Cambio de denominación social"); punctuationRun;
                        Grp 1 (companyNameCapture ["SL"; "SA"])]) with
    | Some n => NewName (trim n)
    | None => NoDetails
    end
  else if String.eqb eventType (L1 "Constitución") then
    (* /Comienzo de operaciones\s*:\s*(\d{2}\.\d{2}\.\d{2,4})/ *)
    let dateMatch :=
      capture (seq [lit "Comienzo de operaciones"; star ws; chr ":"; star ws;
                    Grp 1 (seq [rep 2 2 digit; chr "."; rep 2 2 digit; chr ".";
                                rep 2 4 digit])]) in
    let capitalMatch :=
      capture (seq [litI "Capital:"; star ws; Grp 1 amountCapture]) in
    ConstitutionDetails
      (match dateMatch with
       | Some d => formatSpanishDate (Some d)
       | None => None
       end)
      (option_map trim capitalMatch)
  else if String.eqb eventType (L1 "Disolución") then
    Dissolution (classifyDissolution (dissolutionContext fullEntry))
  else if String.eqb eventType "Capital" then
    match capture (seq [litI "Capital"; punctuationRun; Grp 1 amountCapture]) with
    | Some a => Amount (trim a)
    | None => NoDetails
    end
  else NoDetails.

Definition mkCorporateEvent (eventType fullEntry : string)
  (entryDate : option string) : CorporateEvent :=
  let '(cat, label, icon) := categoryInfoOf eventType in
  let details := eventDetails eventType fullEntry in
  let eventDate :=
    match details with
    | ConstitutionDetails (Some d) _ =>
        if String.eqb eventType (L1 "Constitución") && truthy d
        then Some d else entryDate
    | _ => entryDate
    end in
  {| ev_type := eventType; ev_category := cat; ev_categoryLabel := label;
     ev_icon := icon; ev_date := eventDate; ev_details := details;
     isLifecycleEvent := String.eqb cat "lifecycle";
     isCapitalEvent := String.eqb cat "capital";
     isStructuralEvent := String.eqb cat "structural" |}.

Definition extractCorporateEvents (fullEntry : string)
  (entryDate : option string) : list CorporateEvent :=
  if isEmpty fullEntry then []
  else
    flat_map (fun eventType =>
      if inb eventType officerEventTypes then []
      else if test (litI eventType) fullEntry
      then [mkCorporateEvent eventType fullEntry entryDate]
      else []) (alwaysTopLevel terms).

Record CompanyStatus : Type := {
  status : string;
  label : string
}.

Definition hasType (t : string) (events : list CorporateEvent) : bool :=
  existsb (fun e => String.eqb (ev_type e) t) events.

Definition getCompanyStatusFromEvents (events : list CorporateEvent)
  : CompanyStatus :=
  match events with
  | [] => {| status := "unknown"; label := "Desconocido" |}
  | _ =>
      if hasType (L1 "Extinción") events then
        {| status := "extinct"; label := "Extinguida" |}
      else
        match find (fun e => String.eqb (ev_type e) (L1 "Disolución")) events with
        | Some dissolutionEvent =>
            match ev_details dissolutionEvent with
            | Dissolution voluntary =>
                {| status := "dissolved_voluntary"; label := "Disuelta (Voluntaria)" |}
            | Dissolution judicial =>
                {| status := "dissolved_judicial"; label := "Disuelta (Judicial)" |}
            | Dissolution bankruptcy =>
                {| status := "dissolved_bankruptcy"; label := "Disuelta (Concursal)" |}
            | _ => {| status := "dissolved"; label := "Disuelta" |}
            end
        | None =>
            if hasType "Quiebra" events || hasType (L1 "Situación concursal") events
            then {| status := "bankrupt"; label := "En Quiebra/Concurso" |}
            else if hasType (L1 "Suspensión de pagos") events
            then {| status := "suspended"; label := L1 "Suspensión de Pagos" |}
            else {| status := "active"; label := "Activa" |}
        end
  end.

(** ** [parseBormeEntry] *)

(** What [parseBormeEntry] returns: for a missing or empty entry the
    literal [{ officers: [], registryData: null, categories: [] }], else
    the full record. *)
Inductive BormeData : Type :=
| EmptyEntry
| Parsed (result : BormeResult).

Definition emptyResult : BormeResult :=
  {| officers := noOfficers; registryData := None; categories := [];
     constitution := None; nameChanges := []; currentName := None;
     previousNames := []; newAddress := None; corporateEvents := [] |}.

Definition parseEntry (fullEntry : string) : M BormeResult :=
  registryMatches <- registryMatch fullEntry ;;
  let result :=
    {| officers := noOfficers;
       registryData := match registryMatches with
                       | first :: _ => Some first
                       | [] => None
                       end;
       categories := []; constitution := None; nameChanges := [];
       currentName := None; previousNames := []; newAddress := None;
       corporateEvents := [] |} in
  result <- extractOfficersEnhanced fullEntry result ;;
  let result := extractNameChanges fullEntry result in
  ret {| officers := officers result; registryData := registryData result;
         categories := categories result; constitution := constitution result;
         nameChanges := nameChanges result; currentName := currentName result;
         previousNames := previousNames result; newAddress := newAddress result;
         corporateEvents := extractCorporateEvents fullEntry None |}.

Definition parseBormeEntry (fullEntry : option string) : M BormeData :=
  match fullEntry with
  | None => ret EmptyEntry
  | Some e =>
      if isEmpty e then ret EmptyEntry
      else result <- parseEntry e ;; ret (Parsed result)
  end.

(** ** [parseSpanishCompanyData] *)

(** [rawData.parsed_details]: text fields, the four officer arrays and
    the [administrators] array, whose items are strings ([Some]) or
    values of another type ([None]). *)
Record ParsedDetails : Type := {
  pd_company_name : option string;
  pd_cif : option string;
  pd_cambio_de_domicilio_social : option string;
  pd_address : option string;
  pd_domicilio : option string;
  pd_activity : option string;
  pd_objeto_social : option string;
  pd_capital : option string;
  pd_nombramientos : option (list Officer);
  pd_reelecciones : option (list Officer);
  pd_revocaciones : option (list Officer);
  pd_ceses_dimisiones : option (list Officer);
  pd_administrators : option (list (option string))
}.

(** The fields of [rawData] that the parser reads. *)
Record RawData : Type := {
  full_entry : option string;
  rd_name : option string;
  highlights_company_name : option string;
  rd_company_name : option string;
  parsed_company_name : option string;
  parsed_details : option ParsedDetails;
  identifier : option string;
  entry_type : option (list string);
  content : option string;
  rd_text : option string;
  summary : option string;
  indexed_date : option string;
  rd_date : option string;
  operations_start_date : option string
}.

(** The argument of [parseSpanishCompanyData].  Reading a property of a
    string gives [undefined] for every field above, so a string behaves
    as an object without fields; reading one of [null] or [undefined]
    throws. *)
Inductive JsValue : Type :=
| JNull
| JUndefined
| JString (s : string)
| JObject (r : RawData).

Inductive Outcome (A : Type) : Type :=
| Returns (a : A)
| Throws (error : string).

Definition noFields : RawData :=
  {| full_entry := None; rd_name := None; highlights_company_name := None;
     rd_company_name := None; parsed_company_name := None;
     parsed_details := None; identifier := None; entry_type := None;
     content := None; rd_text := None; summary := None; indexed_date := None;
     rd_date := None; operations_start_date := None |}.

Record CompanyData : Type := {
  company_name : string;
  cd_identifier : option string;
  cif : option string;
  address : option string;
  activity : option string;
  capital : option string;
  total_capital : option string;
  cnae_code : option string;
  constitution_date : option string;
  registry_data : option string;
  cd_officers : Officers;
  cd_entry_type : list string;
  raw_content : option string;
  enhanced_parsing : bool;
  terms_used : bool;
  parsing_method : string;
  cd_nameChanges : list NameChange;
  cd_currentName : string;
  cd_previousNames : list string;
  cd_corporateEvents : list CorporateEvent;
  companyStatus : option CompanyStatus
}.

Definition truthyOpt (o : option string) : bool :=
  match o with Some s => truthy s | None => false end.

(** [a || b] on values that are strings or absent. *)
Definition orOpt (a b : option string) : option string :=
  if truthyOpt a then a else b.

(** [/^\d+\s*[-–—]\s*([^.\n]+?)(?:\s*\(\d{4}\))?\.?$/m] *)
Definition entryNamePattern : re :=
  seq [Bol true; plus digit; star ws; chr "-"; star ws;
       Grp 1 (plusLazy (Chr (fun c => negb (Ascii.eqb c "." || isCode 10 c))));
       opt (seq [star ws; chr "("; rep 4 4 digit; chr ")"]);
       opt (chr "."); Eol true].

Definition nameFromEntry (fullEntry : string) : option string :=
  match exec entryNamePattern fullEntry with
  | Some x =>
      match group fullEntry x 1 with
      | Some g => if truthy g then Some (trim g) else None
      | None => None
      end
  | None => None
  end.

Definition cleanFieldValue (value : string) : string :=
  if isEmpty value then value
  else trim (replaceFirst (seq [Bol false;
                                plus (Chr (fun c => Ascii.eqb c ":" || isSpace c))])
                          (fun _ => "") value).

Definition companyNameOf (rawData : RawData) : string :=
  let fromEntry :=
    match full_entry rawData with
    | Some e => if truthy e then nameFromEntry e else None
    | None => None
    end in
  let fromName :=
    if negb (truthyOpt fromEntry) && truthyOpt (rd_name rawData) &&
       negb (optStrEq (rd_name rawData) (Some (L1 "Empresa Española"))) then
      match rd_name rawData with
      | Some companyName =>
          if endsWith companyName " &" && truthyOpt (full_entry rawData) then
            match full_entry rawData with
            | Some e =>
                match nameFromEntry e with
                | Some fullName =>
                    if (String.length companyName <? String.length fullName)%nat
                    then Some fullName else Some companyName
                | None => Some companyName
                end
            | None => Some companyName
            end
          else Some companyName
      | None => fromEntry
      end
    else fromEntry in
  let fromHighlights :=
    if negb (truthyOpt fromName) && truthyOpt (highlights_company_name rawData) then
      match highlights_company_name rawData with
      | Some h =>
          (* .replace(/<[^>]*>/g, '').trim() *)
          Some (trim (replaceAll
                        (seq [chr "<"; star (Chr (fun c => negb (Ascii.eqb c ">")));
                              chr ">"]) (fun _ => "") h))
      | None => fromName
      end
    else fromName in
  if truthyOpt fromHighlights then
    match fromHighlights with Some n => n | None => "" end
  else
    match orOpt (rd_company_name rawData)
            (orOpt (parsed_company_name rawData)
               (match parsed_details rawData with
                | Some pd => pd_company_name pd
                | None => None
                end)) with
    | Some n => if truthy n then n else L1 "Empresa Española"
    | None => L1 "Empresa Española"
    end.

(** [Object.assign(result, constitution)]: a field that was found
    replaces the one of the result. *)
Definition assignOpt (found current : option string) : option string :=
  match found with Some _ => found | None => current end.

(** The merge of the officers of [parsed_details].  An officer array of
    [parsed_details] becomes the array of the result itself, not a copy
    of it, so the administrators pushed afterwards land in the array of
    the argument as well: the function returns the officers of the
    result and [parsed_details] as the merge leaves it. *)
Definition adminOfficers (admins : list (option string)) : list Officer :=
  flat_map (fun admin =>
    match admin with
    | Some n => [{| name := n; position := "Administrador";
                    raw_entry := None; category := "Nombramientos" |}]
    | None => []
    end) admins.

Definition withNombramientos (pd : ParsedDetails) (l : list Officer)
  : ParsedDetails :=
  {| pd_company_name := pd_company_name pd; pd_cif := pd_cif pd;
     pd_cambio_de_domicilio_social := pd_cambio_de_domicilio_social pd;
     pd_address := pd_address pd; pd_domicilio := pd_domicilio pd;
     pd_activity := pd_activity pd; pd_objeto_social := pd_objeto_social pd;
     pd_capital := pd_capital pd; pd_nombramientos := Some l;
     pd_reelecciones := pd_reelecciones pd;
     pd_revocaciones := pd_revocaciones pd;
     pd_ceses_dimisiones := pd_ceses_dimisiones pd;
     pd_administrators := pd_administrators pd |}.

Definition mergeParsedOfficers (pd : ParsedDetails) (o : Officers)
  : Officers * ParsedDetails :=
  let take (given : option (list Officer)) (current : list Officer) :=
    match given with Some l => l | None => current end in
  let o :=
    {| nombramientos := take (pd_nombramientos pd) (nombramientos o);
       reelecciones := take (pd_reelecciones pd) (reelecciones o);
       revocaciones := take (pd_revocaciones pd) (revocaciones o);
       ceses_dimisiones := take (pd_ceses_dimisiones pd) (ceses_dimisiones o) |} in
  match pd_administrators pd with
  | Some admins =>
      (pushOfficers KNombramientos (adminOfficers admins) o,
       match pd_nombramientos pd with
       | Some l => withNombramientos pd (l ++ adminOfficers admins)
       | None => pd
       end)
  | None => (o, pd)
  end.

Definition withParsedDetails (rawData : RawData) (pd : ParsedDetails)
  : RawData :=
  {| full_entry := full_entry rawData; rd_name := rd_name rawData;
     highlights_company_name := highlights_company_name rawData;
     rd_company_name := rd_company_name rawData;
     parsed_company_name := parsed_company_name rawData;
     parsed_details := Some pd; identifier := identifier rawData;
     entry_type := entry_type rawData; content := content rawData;
     rd_text := rd_text rawData; summary := summary rawData;
     indexed_date := indexed_date rawData; rd_date := rd_date rawData;
     operations_start_date := operations_start_date rawData |}.

Definition withEntryDate (entryDate : option string) (event : CorporateEvent)
  : CorporateEvent :=
  {| ev_type := ev_type event; ev_category := ev_category event;
     ev_categoryLabel := ev_categoryLabel event; ev_icon := ev_icon event;
     ev_date := orOpt (ev_date event) entryDate;
     ev_details := ev_details event;
     isLifecycleEvent := isLifecycleEvent event;
     isCapitalEvent := isCapitalEvent event;
     isStructuralEvent := isStructuralEvent event |}.

(** [/Cambio de domicilio social\.?\s*([^.]+(?:\([^)]+\))?)/i] *)
Definition cambioDomicilioPattern : re :=
  seq [litI "Cambio de domicilio social"; opt (chr "."); star ws;
       Grp 1 (seq [plus (Chr (fun c => negb (Ascii.eqb c ".")));
                   opt (seq [chr "(";
                             plus (Chr (fun c => negb (Ascii.eqb c ")")));
                             chr ")"])])].

(** [/siendo lo correcto\s+([^.]+?)(?:\.\s*Datos registrales|,\.\s*Datos|\.$)/i] *)
Definition feErratasPattern : re :=
  seq [litI "siendo lo correcto"; plus ws;
       Grp 1 (plusLazy (Chr (fun c => negb (Ascii.eqb c "."))));
       alt [seq [chr "."; star ws; litI "Datos registrales"];
            seq [chr ","; chr "."; star ws; litI "Datos"];
            seq [chr "."; Eol false]]].

Definition addressFallbacks (fullEntry : option string)
  (current : option string) : option string :=
  match fullEntry with
  | Some e =>
      if truthy e then
        let current :=
          if negb (truthyOpt current) then
            match exec cambioDomicilioPattern e with
            | Some x =>
                let extractedAddress := trim (groupOr e x 1) in
                if test streetPattern extractedAddress
                then Some (stripFinalPeriod extractedAddress) else current
            | None => current
            end
          else current in
        if negb (truthyOpt current) && includes e "Fe de erratas" &&
           includes e "domicilio" then
          match exec feErratasPattern e with
          | Some x =>
              let extractedAddress :=
                replaceFirst (seq [chr ","; Eol false]) (fun _ => "")
                             (trim (groupOr e x 1)) in
              if test streetPattern extractedAddress
              then Some extractedAddress else current
          | None => current
          end
        else current
      else current
  | None => current
  end.

(** [if (!result.f && pd.g) result.f = this.cleanFieldValue(pd.g)] *)
Definition fillFrom (given current : option string) : option string :=
  if negb (truthyOpt current) && truthyOpt given
  then option_map cleanFieldValue given else current.

(** The body of [parseSpanishCompanyData] on an object: its result and
    the argument object as the call leaves it. *)
Definition parseCompany (rawData : RawData) : M (CompanyData * RawData) :=
  let companyName := companyNameOf rawData in
  let entry := full_entry rawData in
  (* Parse from full_entry; the entry is not empty there, so
     [parseBormeEntry] runs its main path. *)
  parsed <-
    (if truthyOpt entry then
       match entry with
       | Some e => r <- parseEntry e ;; ret (Some r)
       | None => ret None
       end
     else ret None) ;;
  let entryDate := nameOrNull (orOpt (indexed_date rawData) (rd_date rawData)) in
  let events :=
    match parsed with
    | Some r => map (withEntryDate entryDate) (corporateEvents r)
    | None => []
    end in
  let found (f : ConstitutionInfo -> option string) : option string :=
    match parsed with
    | Some r => match constitution r with Some c => f c | None => None end
    | None => None
    end in
  let address :=
    match parsed with
    | Some r => assignOpt (nameOrNull (newAddress r)) (found c_address)
    | None => None
    end in
  let address := addressFallbacks entry address in
  let constitutionDate :=
    let d := found c_constitution_date in
    if negb (truthyOpt d) && truthyOpt (operations_start_date rawData)
    then operations_start_date rawData else d in
  let pd := parsed_details rawData in
  let fromPd (f : ParsedDetails -> option string) : option string :=
    match pd with Some d => f d | None => None end in
  let address :=
    fillFrom (fromPd pd_domicilio)
      (fillFrom (fromPd pd_address)
         (fillFrom (fromPd pd_cambio_de_domicilio_social) address)) in
  let activity :=
    fillFrom (fromPd pd_objeto_social)
      (fillFrom (fromPd pd_activity) (found c_activity)) in
  let capital := fillFrom (fromPd pd_capital) (found c_capital) in
  let officers1 :=
    match parsed with Some r => officers r | None => noOfficers end in
  let merged :=
    match pd with
    | Some d =>
        if (getTotalOfficers officers1 =? 0)%nat
        then
          let (o, d') := mergeParsedOfficers d officers1 in
          (o, withParsedDetails rawData d')
        else (officers1, rawData)
    | None => (officers1, rawData)
    end in
  let officers2 := fst merged in
  let textContent :=
    orOpt (content rawData) (orOpt (rd_text rawData) (summary rawData)) in
  fallback <-
    (if truthyOpt textContent && (getTotalOfficers officers2 =? 0)%nat then
       match textContent with
       | Some t => r <- parseEntry t ;; ret (Some r)
       | None => ret None
       end
     else ret None) ;;
  ret ({| company_name := companyName;
         cd_identifier := identifier rawData;
         cif := fillFrom (fromPd pd_cif) None;
         address := address;
         activity := activity;
         capital := capital;
         total_capital := None;
         cnae_code := found c_cnae_code;
         constitution_date := constitutionDate;
         registry_data :=
           match parsed with Some r => registryData r | None => None end;
         cd_officers :=
           match fallback with Some r => officers r | None => officers2 end;
         cd_entry_type :=
           match entry_type rawData with Some l => l | None => [] end;
         raw_content := orOpt entry (orOpt (content rawData) (rd_text rawData));
         enhanced_parsing := true;
         terms_used := true;
         parsing_method :=
           match fallback with Some _ => "fallback" | None => "enhanced" end;
         cd_nameChanges :=
           match parsed with Some r => nameChanges r | None => [] end;
         cd_currentName := companyName;
         cd_previousNames :=
           match parsed with Some r => previousNames r | None => [] end;
         cd_corporateEvents := events;
         companyStatus :=
           match events with
           | [] => None
           | _ => Some (getCompanyStatusFromEvents events)
           end |}, snd merged).

(** [parseSpanishCompanyData]: the result, or the error thrown, and the
    argument as the call leaves it. *)
Definition parseSpanishCompanyData (rawData : JsValue)
  : M (Outcome (CompanyData * JsValue)) :=
  match rawData with
  | JNull =>
      ret (Throws _ "TypeError: Cannot read properties of null (reading 'full_entry')")
  | JUndefined =>
      ret (Throws _ "TypeError: Cannot read properties of undefined (reading 'full_entry')")
  | JString _ => r <- parseCompany noFields ;; ret (Returns _ (fst r, rawData))
  | JObject fields =>
      r <- parseCompany fields ;; ret (Returns _ (fst r, JObject (snd r)))
  end.

End WithTerms.

Arguments Returns {A} a.
Arguments Throws {A} error.

(** A vocabulary for the worked examples: the category names of
    [eventCategories] and a handful of positions in the bulletin's own
    abbreviated spelling. *)
Definition sampleTerms : Terms :=
  {| alwaysTopLevel :=
       flat_map (fun c => match c with (_, _, _, events) => events end)
                eventCategories;
     officersPositions :=
       map L1 ["Adm. Unico"; "Adm. Solid."; "Adm. Mancom."; "Liquidador";
               "Presidente"; "Secretario"; "Consejero"; "Apoderado"] |}.

End Parser.

(** ** The strategy chain in the specification's words

    Four strategies tried in the order category-structured, inline
    pattern, direct pattern, name proximity, each one only if those
    before it found no officer: the banners a run prints would then be
    an initial part of this list. *)
Module ClaimedChain.
Import Parser.

Definition strategyOrder : list string :=
  [bannerSections; bannerInline; bannerDirect; bannerProximity].

Definition inClaimedOrder (banners : list string) : Prop :=
  exists n, banners = firstn n strategyOrder.

End ClaimedChain.

(** ** The dissolution scenario in the specification's words

    If "voluntaria" appears within 150 characters after the mention of
    the dissolution, the company status is [dissolved_voluntary]. *)
Module ClaimedWindow.
Import Parser.

(** The 150 characters that follow the first mention. *)
Definition charactersAfterMention (fullEntry : string) : string :=
  match Regex.exec (Regex.litI (L1 "Disolución")) fullEntry with
  | Some x => take 150 (drop (Regex.mend x) fullEntry)
  | None => ""
  end.

Definition voluntaryAsClaimed (terms : Terms) (fullEntry : string) : Prop :=
  includes (toLowerCase (charactersAfterMention fullEntry)) "voluntaria" = true ->
  status (getCompanyStatusFromEvents (extractCorporateEvents terms fullEntry None))
  = "dissolved_voluntary".

End ClaimedWindow.

(* ================================================================== *)
(** * The notions in which the properties are stated *)
(* ================================================================== *)

Module Notions.
Import Service Parser.
Local Open Scope list_scope.

(** ** Timelines *)

(** An event is an appointment or a cessation, never both and never
    neither. *)
Definition wellFlagged (e : OfficerEvent) : Prop :=
  e_isCessation e = negb (e_isAppointment e).

(** What holds of every group of the timeline map: it is not empty, its
    events carry the group's key and satisfy [P]. *)
Definition groupsOk (P : OfficerEvent -> Prop)
  (tl : list (string * list OfficerEvent)) : Prop :=
  Forall (fun g => snd g <> [] /\
                   Forall (fun e => eventKey e = fst g /\ P e) (snd g)) tl.

(** [a] is not later than [b]. *)
Definition notLater (timeValue : string -> option Z) (a b : OfficerEvent) : Prop :=
  (compareDates timeValue a b <= 0)%Z.

(** The date of [e] parses. *)
Definition dated (timeValue : string -> option Z) (e : OfficerEvent) : Prop :=
  timeValue (e_date e) <> None.

Definition officerRecord (n p t d : string) : RawOfficer :=
  {| o_name := Some n; o_position := Some p; o_event_type := Some t;
     o_status := Some (if String.eqb t "nombramientos" then "active" else "ceased");
     o_removal_date := None; o_date := Some d; o_appointment_date := None;
     o_event_date := None; o_company_name := None |}.

(** The events of the specification's second scenario. *)
Definition scenarioOfficers : list RawOfficer :=
  [ officerRecord "JUAN PEREZ GARCIA" "Administrador" "nombramientos" "2019-03-01";
    officerRecord "JUAN PEREZ GARCIA" "Administrador" "ceses_dimisiones" "2021-07-15";
    officerRecord "JUAN PEREZ GARCIA" "Administrador" "nombramientos" "2023-01-10" ].

(** Their group in the timeline map, in the order of insertion. *)
Definition scenarioGroup : list OfficerEvent :=
  [ mkEvent Service.nombramientos (nth 0 scenarioOfficers (officerRecord "" "" "" ""));
    mkEvent Service.nombramientos (nth 2 scenarioOfficers (officerRecord "" "" "" ""));
    mkEvent Service.ceses_dimisiones (nth 1 scenarioOfficers (officerRecord "" "" "" "")) ].

(** ** Dates *)

Fixpoint countChars (p : ascii -> bool) (s : string) : nat :=
  match s with
  | EmptyString => 0
  | String c r => (if p c then 1 else 0) + countChars p r
  end.

(** A numeric component: a non-empty string of decimal digits. *)
Definition numeric (s : string) : Prop :=
  s <> "" /\ allChars isDigit s = true.

(** The number a numeric component denotes. *)
Fixpoint decimalFrom (acc : Z) (s : string) : Z :=
  match s with
  | EmptyString => acc
  | String c r => decimalFrom (acc * 10 + (Z.of_N (code c) - 48)) r
  end.
Definition decimal (s : string) : Z := decimalFrom 0 s.

Definition isSeparator (c : ascii) : bool := inStr "./-" c.

(** The year as [formatSpanishDate] writes it: a two-digit year [y]
    becomes 20y when below 50 and 19y otherwise. *)
Definition expandYear (y : string) : string :=
  if (String.length y =? 2)%nat then
    if (decimal y <? 50)%Z then "20" ++ y else "19" ++ y
  else y.

(** ** Computations *)

(** A computation that prints nothing. *)
Definition silent {A : Type} (c : M A) : Prop :=
  forall li, printed (c li) = [].

(** A computation whose result satisfies [P] whatever [lastIndex] is. *)
Definition ensures {A : Type} (c : M A) (P : A -> Prop) : Prop :=
  forall li, P (value (c li)).

(** A computation whose result does not depend on [lastIndex]. *)
Definition steady {A : Type} (c : M A) : Prop :=
  forall li1 li2, value (c li1) = value (c li2).

(** ** Officers *)

(** The shape of a valid name: at least two white-space separated
    tokens, a capital first letter, no digit. *)
Definition validShape (n : string) : Prop :=
  2 <= List.length (nameWords n) /\
  startsWithCapital n = true /\
  anyChar isDigit n = false.

(** A position that the resolution cascade returns for some text. *)
Definition resolved (terms : Terms) (p : string) : Prop :=
  exists positionText, findOfficerPosition terms positionText = Some p.

(** The three origins of a stored position: the cascade, the fixed
    position of a sole shareholder, and, in the name-proximity strategy,
    the keyword itself when the cascade resolves it to nothing. *)
Definition positionOrigin (terms : Terms) (p : string) : Prop :=
  resolved terms p \/
  p = L1 "Socio único" \/
  (In p positionKeywords /\ findOfficerPosition terms p = None).

Definition sound (terms : Terms) (o : Officer) : Prop :=
  validShape (name o) /\ positionOrigin terms (position o).

Definition soundOfficers (terms : Terms) (o : Officers) : Prop :=
  Forall (sound terms) (allOfficers o).

Definition soundResult (terms : Terms) (r : BormeResult) : Prop :=
  soundOfficers terms (officers r).

Definition soundOption (terms : Terms) (o : option Officer) : Prop :=
  match o with Some x => sound terms x | None => True end.

(** The entry of the specification's first scenario. *)
Definition scenarioEntry : string :=
  "Ceses/Dimisiones. Adm. Solid.: JUAN PEREZ GARCIA;MARIA LOPEZ RUIZ. Nombramientos. Liquidador: CARLOS RUIZ SOTO.".

(** An entry that only the name-proximity strategy reads. *)
Definition proximityEntry : string := "Consejera solidaria Ana Ruiz Soto".

(** The officers of an outcome. *)
Definition officersOf (o : Outcome (CompanyData * JsValue)) : list Officer :=
  match o with
  | Returns (r, _) => allOfficers (cd_officers r)
  | Throws _ => []
  end.

(** The argument of a call as the call leaves it. *)
Definition argumentAfter (o : Outcome (CompanyData * JsValue))
  (rawData : JsValue) : JsValue :=
  match o with
  | Returns (_, a) => a
  | Throws _ => rawData
  end.

(** An object with an empty [nombramientos] array and one administrator
    in [parsed_details]. *)
Definition sharedArrayInput : RawData :=
  {| full_entry := None; rd_name := None; highlights_company_name := None;
     rd_company_name := None; parsed_company_name := None;
     parsed_details :=
       Some {| pd_company_name := None; pd_cif := None;
               pd_cambio_de_domicilio_social := None; pd_address := None;
               pd_domicilio := None; pd_activity := None;
               pd_objeto_social := None; pd_capital := None;
               pd_nombramientos := Some []; pd_reelecciones := None;
               pd_revocaciones := None; pd_ceses_dimisiones := None;
               pd_administrators := Some [Some "JUAN PEREZ"] |};
     identifier := None; entry_type := None; content := None;
     rd_text := None; summary := None; indexed_date := None;
     rd_date := None; operations_start_date := None |}.

(** An object whose only field is [parsed_details.administrators]. *)
Definition onlyAdministrators (admins : list (option string)) : RawData :=
  {| full_entry := None; rd_name := None; highlights_company_name := None;
     rd_company_name := None; parsed_company_name := None;
     parsed_details :=
       Some {| pd_company_name := None; pd_cif := None;
               pd_cambio_de_domicilio_social := None; pd_address := None;
               pd_domicilio := None; pd_activity := None;
               pd_objeto_social := None; pd_capital := None;
               pd_nombramientos := None; pd_reelecciones := None;
               pd_revocaciones := None; pd_ceses_dimisiones := None;
               pd_administrators := Some admins |};
     identifier := None; entry_type := None; content := None;
     rd_text := None; summary := None; indexed_date := None;
     rd_date := None; operations_start_date := None |}.

(** No officer is taken over from [parsed_details]. *)
Definition noParsedOfficers (rawData : JsValue) : Prop :=
  match rawData with
  | JObject fields =>
      match parsed_details fields with
      | Some pd =>
          pd_nombramientos pd = None /\ pd_reelecciones pd = None /\
          pd_revocaciones pd = None /\ pd_ceses_dimisiones pd = None /\
          pd_administrators pd = None
      | None => True
      end
  | _ => True
  end.

(** The structure that [parseSpanishCompanyData] returns when no text
    field is given. *)
Definition defaultCompany : CompanyData :=
  {| company_name := L1 "Empresa Española"; cd_identifier := None;
     cif := None; address := None; activity := None; capital := None;
     total_capital := None; cnae_code := None; constitution_date := None;
     registry_data := None; cd_officers := noOfficers; cd_entry_type := [];
     raw_content := None; enhanced_parsing := true; terms_used := true;
     parsing_method := "enhanced"; cd_nameChanges := [];
     cd_currentName := L1 "Empresa Española"; cd_previousNames := [];
     cd_corporateEvents := []; companyStatus := None |}.

(** ** The matcher *)

(** A position of the matcher that lies in the subject [s]. *)
Definition inSubject (s : string) (st : Regex.mstate) : Prop :=
  Regex.rest st = drop (Regex.pos st) s.

(** A result of the matcher is a result of its continuation, called at a
    position of the subject. *)
Definition reachesContinuation (s : string)
  (ma : Regex.mstate -> (Regex.mstate -> option Regex.mstate)
        -> option Regex.mstate) : Prop :=
  forall st k res, inSubject s st -> ma st k = Some res ->
    exists st', inSubject s st' /\ k st' = Some res.

Definition notPeriod (c : ascii) : bool := negb (Ascii.eqb c ".").

End Notions.

(* ================================================================== *)
(** * Properties of the temporal resolver and of the name matcher *)
(* ================================================================== *)

Module ServiceFacts.
Import Service Notions.
Local Open Scope list_scope.

(** ** The fold over a group *)

Lemma resolveStatus_snoc (l : list OfficerEvent) (e : OfficerEvent) :
  resolveStatus (l ++ [e]) = stepStatus (resolveStatus l) e.
Proof. unfold resolveStatus. now rewrite fold_left_app. Qed.

(** An event made by the loop is well flagged. *)
Lemma mkEvent_wellFlagged (c : Category) (o : RawOfficer) :
  wellFlagged (mkEvent c o).
Proof. destruct c; reflexivity. Qed.

Lemma collectEvents_wellFlagged (raw : list RawOfficer) :
  Forall wellFlagged (collectEvents raw).
Proof.
  unfold collectEvents. apply Forall_forall. intros e He.
  apply in_flat_map in He. destruct He as [c [_ He]].
  apply in_map_iff in He. destruct He as [o [<- _]].
  apply mkEvent_wellFlagged.
Qed.

(** ** The groups of [officerTimeline] *)

Lemma pushEvent_groupsOk (P : OfficerEvent -> Prop) e tl :
  P e -> groupsOk P tl -> groupsOk P (pushEvent (eventKey e) e tl).
Proof.
  intros HP. induction tl as [|[k evs] r IH]; intros H; simpl.
  - repeat constructor; auto. discriminate.
  - inversion H as [|? ? [Hne Hall] Hr]; subst. simpl in *.
    destruct (String.eqb_spec k (eventKey e)) as [->|Hk].
    + constructor; auto. simpl. split.
      * destruct evs; discriminate.
      * apply Forall_app. split; auto.
    + constructor; auto. apply IH, Hr.
Qed.

Lemma fold_pushEvent_groupsOk (P : OfficerEvent -> Prop) evs :
  Forall P evs -> forall tl, groupsOk P tl ->
  groupsOk P (fold_left (fun tl e => pushEvent (eventKey e) e tl) evs tl).
Proof.
  induction 1 as [|e evs He _ IH]; intros tl Htl; simpl; auto.
  apply IH, pushEvent_groupsOk; auto.
Qed.

Lemma officerTimeline_groupsOk (raw : list RawOfficer) :
  groupsOk wellFlagged (officerTimeline raw).
Proof.
  apply fold_pushEvent_groupsOk.
  - apply collectEvents_wellFlagged.
  - constructor.
Qed.

(** ** The sort *)

Section Sorting.
Variable timeValue : string -> option Z.

Lemma insertEvent_perm x l :
  Permutation (insertEvent timeValue x l) (x :: l).
Proof.
  induction l as [|y r IH]; simpl; auto.
  destruct (compareDates timeValue x y <=? 0)%Z; auto.
  rewrite IH. apply perm_swap.
Qed.

Lemma sortEvents_perm l : Permutation (sortEvents timeValue l) l.
Proof.
  induction l as [|x r IH]; simpl; auto.
  rewrite insertEvent_perm. now constructor.
Qed.

Local Abbreviation notLater := (Notions.notLater timeValue).
Local Abbreviation dated := (Notions.dated timeValue).

Lemma notLater_trans a b c :
  dated a -> dated b -> dated c ->
  notLater a b -> notLater b c -> notLater a c.
Proof.
  unfold Notions.dated, Notions.notLater, compareDates.
  destruct (timeValue (e_date a)), (timeValue (e_date b)),
    (timeValue (e_date c)); intros; try congruence; lia.
Qed.

Lemma notLater_total a b :
  dated a -> dated b -> ~ notLater a b -> notLater b a.
Proof.
  unfold Notions.dated, Notions.notLater, compareDates.
  destruct (timeValue (e_date a)), (timeValue (e_date b));
    intros; try congruence; lia.
Qed.

Lemma insertEvent_sorted x l :
  dated x -> Forall dated l ->
  StronglySorted notLater l -> StronglySorted notLater (insertEvent timeValue x l).
Proof.
  intros Hx Hl Hs. induction Hs as [|y r Hr IH Hy]; simpl.
  - repeat constructor.
  - inversion Hl as [|? ? Hdy Hdr]; subst.
    destruct (Z.leb_spec (compareDates timeValue x y) 0) as [Hle|Hgt].
    + constructor; [constructor; auto|].
      constructor; auto.
      rewrite Forall_forall in *. intros z Hz.
      apply (notLater_trans x y z); auto.
    + constructor; auto.
      rewrite Forall_forall. intros z Hz.
      apply (Permutation_in _ (insertEvent_perm x r)) in Hz.
      destruct Hz as [<-|Hz].
      * apply notLater_total; auto. unfold Notions.notLater. lia.
      * rewrite Forall_forall in Hy. auto.
Qed.

Lemma sortEvents_sorted l :
  Forall dated l -> StronglySorted notLater (sortEvents timeValue l).
Proof.
  induction 1 as [|x r Hx Hr IH]; simpl; [constructor|].
  apply insertEvent_sorted; auto.
  rewrite Forall_forall in *. intros z Hz.
  apply Hr. now apply (Permutation_in _ (sortEvents_perm r)).
Qed.

Lemma sorted_last_latest init x :
  dated x ->
  StronglySorted notLater (init ++ [x]) ->
  forall e, In e (init ++ [x]) -> notLater e x.
Proof.
  intros Hx. induction init as [|y r IH]; simpl; intros Hs e He.
  - destruct He as [<-|[]]. unfold Notions.notLater, compareDates, Notions.dated in *.
    destruct (timeValue (e_date x)); [lia | congruence].
  - inversion Hs as [|? ? Hr Hy]; subst.
    destruct He as [<-|He]; auto.
    rewrite Forall_forall in Hy. apply Hy, in_or_app. right. now left.
Qed.

End Sorting.

(** ** The status of a group is decided by its last event *)

Lemma resolveStatus_last (init : list OfficerEvent) (e : OfficerEvent) :
  wellFlagged e ->
  isCurrentlyActive (resolveStatus (init ++ [e])) = e_isAppointment e /\
  (e_isAppointment e = true ->
   latestActiveDate (resolveStatus (init ++ [e])) = Some (e_date e)).
Proof.
  intros Hw. rewrite resolveStatus_snoc. unfold stepStatus, wellFlagged in *.
  destruct (e_isAppointment e); simpl in *.
  - auto.
  - rewrite Hw. simpl. split; [reflexivity | discriminate].
Qed.


End ServiceFacts.

(** ** The name matcher *)

Module MatcherFacts.
Import Service.
Local Open Scope list_scope.

Lemma inb_In x l : inb x l = true <-> In x l.
Proof.
  unfold inb. rewrite existsb_exists. split.
  - intros [y [Hy He]]. apply String.eqb_eq in He. now subst.
  - intros H. exists x. split; auto. apply String.eqb_refl.
Qed.

Lemma dedup_In seen l x :
  In x (dedup seen l) <-> In x l /\ ~ In x seen.
Proof.
  revert seen. induction l as [|y r IH]; intros seen; simpl.
  - tauto.
  - destruct (inb y seen) eqn:Hy.
    + apply inb_In in Hy. rewrite IH. split.
      * tauto.
      * intros [[<-|H] Hn]; tauto.
    + assert (Hy' : ~ In y seen).
      { intros H. apply inb_In in H. congruence. }
      simpl. rewrite IH. simpl. split.
      * intros [<-|[H Hn]]; tauto.
      * intros [[<-|H] Hn]; auto.
        destruct (string_dec y x) as [<-|Hne]; auto.
        right. split; auto. intros [E|E]; auto.
Qed.

Lemma dedup_NoDup seen l : NoDup (dedup seen l).
Proof.
  revert seen. induction l as [|y r IH]; intros seen; simpl.
  - constructor.
  - destruct (inb y seen); auto.
    constructor; auto. rewrite dedup_In. simpl. tauto.
Qed.

Lemma toSet_In l x : In x (toSet l) <-> In x l.
Proof. unfold toSet. rewrite dedup_In. simpl. tauto. Qed.

(** The list [intersection p1 p2] holds, once each, the strings that are
    parts of both names; [unionSize] counts those of either. *)
Lemma intersection_spec p1 p2 x :
  In x (intersection p1 p2) <-> In x p1 /\ In x p2.
Proof.
  unfold intersection. rewrite filter_In, inb_In, !toSet_In. tauto.
Qed.

Lemma intersection_NoDup p1 p2 : NoDup (intersection p1 p2).
Proof. unfold intersection. apply NoDup_filter, dedup_NoDup. Qed.

Lemma lastTwo_length l : List.length (lastTwo l) <= 2.
Proof. unfold lastTwo. rewrite length_skipn. lia. Qed.

Lemma extractNameParts_length name : List.length (extractNameParts name) <= 3.
Proof.
  unfold extractNameParts.
  set (parts := filter _ _).
  destruct (Nat.leb_spec (List.length parts) 3) as [H|H]; auto.
  destruct parts; simpl in *; [lia|].
  pose proof (lastTwo_length (s :: parts)). simpl in *. lia.
Qed.

Lemma optStrEq_eq a b : optStrEq a b = true <-> a = b.
Proof.
  destruct a, b; simpl; try (split; congruence).
  rewrite String.eqb_eq. split; congruence.
Qed.



End MatcherFacts.

(* ================================================================== *)
(** * Properties of the parser *)
(* ================================================================== *)

(** ** Strings *)

Module StringFacts.
Import Notions.

Lemma append_empty_r (s : string) : (s ++ "")%string = s.
Proof. induction s; simpl; congruence. Qed.

Lemma append_assoc (a b c : string) :
  ((a ++ b) ++ c)%string = (a ++ (b ++ c))%string.
Proof. induction a; simpl; congruence. Qed.

Lemma rev_acc_append (a b : string) :
  rev_acc a b = (srev a ++ b)%string.
Proof.
  unfold srev. revert b. induction a as [|c a IH]; intros b; simpl; auto.
  rewrite IH, (IH (String c "")), append_assoc. reflexivity.
Qed.

Lemma srev_append (a b : string) :
  srev (a ++ b) = (srev b ++ srev a)%string.
Proof.
  induction a as [|c a IH]; simpl.
  - now rewrite append_empty_r.
  - unfold srev in *. simpl.
    rewrite (rev_acc_append (a ++ b)), (rev_acc_append a).
    unfold srev. rewrite IH, append_assoc. reflexivity.
Qed.

Lemma srev_involutive (s : string) : srev (srev s) = s.
Proof.
  induction s as [|c s IH]; auto.
  unfold srev at 2. simpl. rewrite rev_acc_append, srev_append, IH.
  reflexivity.
Qed.

Lemma length_append (a b : string) :
  String.length (a ++ b) = String.length a + String.length b.
Proof. induction a; simpl; auto. Qed.

Lemma allChars_append p (a b : string) :
  allChars p (a ++ b) = allChars p a && allChars p b.
Proof. induction a as [|c a IH]; simpl; auto. now rewrite IH, andb_assoc. Qed.

(** Splitting at the characters of a class: a piece without separators
    is carried over to the next separator or to the end. *)
Lemma splitAcc_piece sep (a rest cur : string) :
  allChars (fun c => negb (sep c)) a = true ->
  splitAcc sep (a ++ rest) cur = splitAcc sep rest (rev_acc a cur).
Proof.
  revert cur. induction a as [|c a IH]; intros cur H; simpl in *; auto.
  apply andb_true_iff in H. destruct H as [Hc Ha].
  apply negb_true_iff in Hc. rewrite Hc. now apply IH.
Qed.

Lemma splitOn_three sep (a b c : string) (s1 s2 : ascii) :
  allChars (fun x => negb (sep x)) a = true ->
  allChars (fun x => negb (sep x)) b = true ->
  allChars (fun x => negb (sep x)) c = true ->
  sep s1 = true -> sep s2 = true ->
  splitOn sep (a ++ String s1 (b ++ String s2 c)) = [a; b; c].
Proof.
  intros Ha Hb Hc H1 H2. unfold splitOn.
  rewrite splitAcc_piece by assumption. simpl. rewrite H1.
  rewrite splitAcc_piece by assumption. simpl. rewrite H2.
  rewrite <- (append_empty_r c) at 1.
  rewrite splitAcc_piece by assumption. simpl.
  fold (srev a) (srev b) (srev c). now rewrite !srev_involutive.
Qed.

(** The number of pieces is one more than the number of separators. *)
Lemma splitAcc_length sep (s cur : string) :
  List.length (splitAcc sep s cur) = S (countChars sep s).
Proof.
  revert cur. induction s as [|c s IH]; intros cur; simpl; auto.
  destruct (sep c); simpl; rewrite IH; reflexivity.
Qed.

End StringFacts.

(** ** Date formatting *)

Module DateFacts.
Import Parser Notions StringFacts.

Lemma digit_facts (c : ascii) :
  isDigit c = true ->
  isSeparator c = false /\ isSpace c = false /\
  Ascii.eqb c "-" = false /\ Ascii.eqb c "+" = false /\
  Ascii.eqb "x" c = false /\ Ascii.eqb "X" c = false.
Proof.
  destruct c as [[] [] [] [] [] [] [] []]; vm_compute; intros H;
    try discriminate H; repeat split.
Qed.

Lemma numeric_no_separator (s : string) :
  allChars isDigit s = true ->
  allChars (fun c => negb (isSeparator c)) s = true.
Proof.
  induction s as [|c s IH]; simpl; auto.
  intros H. apply andb_true_iff in H. destruct H as [Hc Hs].
  destruct (digit_facts c Hc) as [-> _]. simpl. auto.
Qed.

Lemma digitsPrefix_all (s : string) :
  allChars isDigit s = true -> digitsPrefix s = list_ascii_of_string s.
Proof.
  induction s as [|c s IH]; simpl; auto.
  intros H. apply andb_true_iff in H. destruct H as [Hc Hs].
  rewrite Hc, IH; auto.
Qed.

Lemma fold_decimal (s : string) (acc : Z) :
  fold_left (fun a c => (a * 10 + digitValue c)%Z) (list_ascii_of_string s) acc
  = decimalFrom acc s.
Proof. revert acc. induction s as [|c s IH]; intros acc; simpl; auto. Qed.

(** [parseInt] reads a numeric component as the number it denotes. *)
Lemma parseInt_numeric (s : string) :
  numeric s -> parseInt s = Some (decimal s).
Proof.
  intros [Hne Hd]. destruct s as [|c s]; [contradiction|].
  simpl in Hd. apply andb_true_iff in Hd. destruct Hd as [Hc Hs].
  destruct (digit_facts c Hc) as [_ [Hsp [Hm [Hp _]]]].
  unfold parseInt. cbn [trimStart]. rewrite Hsp, Hm, Hp.
  assert (Hx : (startsWith "0x" (String c s) || startsWith "0X" (String c s)) = false).
  { destruct s as [|d s]; cbn [startsWith].
    - rewrite !andb_false_r. reflexivity.
    - simpl in Hs. apply andb_true_iff in Hs. destruct Hs as [Hd _].
      destruct (digit_facts d Hd) as [_ [_ [_ [_ [Hx1 Hx2]]]]].
      rewrite Hx1, Hx2, !andb_false_r. reflexivity. }
  rewrite Hx.
  rewrite digitsPrefix_all by (simpl; now rewrite Hc, Hs).
  simpl. rewrite fold_decimal. reflexivity.
Qed.

(** C10. A date of three numeric components separated by a period, a
    slash or a hyphen is returned as year-month-day, with day and month
    padded to two digits by a leading zero and a two-digit year y
    expanded to 20y when y < 50 and to 19y when y >= 50; a non-empty
    input that does not hold exactly two separators is returned
    unchanged; [null] and the empty string give [null]. *)
Theorem formatSpanishDate_pivot :
  (forall (day month year : string) (s1 s2 : ascii),
     numeric day -> numeric month -> numeric year ->
     isSeparator s1 = true -> isSeparator s2 = true ->
     formatSpanishDate (Some (day ++ String s1 (month ++ String s2 year)))
     = Some (expandYear year ++ "-" ++ padStart2 month ++ "-" ++ padStart2 day)
     /\ (String.length day = 1 -> padStart2 day = "0" ++ day)
     /\ (2 <= String.length day -> padStart2 day = day)
     /\ (String.length month = 1 -> padStart2 month = "0" ++ month)
     /\ (2 <= String.length month -> padStart2 month = month)) /\
  (forall s : string,
     s <> "" -> countChars isSeparator s <> 2 ->
     formatSpanishDate (Some s) = Some s) /\
  formatSpanishDate None = None /\
  formatSpanishDate (Some "") = None.
Proof.
  split; [|split; [|split; reflexivity]].
  - intros day month year s1 s2 [Hdn Hd] [Hmn Hm] [Hyn Hy] H1 H2.
    assert (Hpad : forall x, (String.length x = 1 -> padStart2 x = "0" ++ x) /\
                             (2 <= String.length x -> padStart2 x = x)).
    { intros x. unfold padStart2.
      destruct (String.length x) as [|[|n]]; split; intros; try lia; reflexivity. }
    split; [|destruct (Hpad day), (Hpad month); auto].
    unfold formatSpanishDate.
    destruct day as [|c day]; [contradiction|]. cbn [isEmpty append].
    change (String c (day ++ String s1 (month ++ String s2 year))%string)
      with ((String c day) ++ String s1 (month ++ String s2 year))%string.
    fold isSeparator.
    rewrite (splitOn_three isSeparator) by (auto using numeric_no_separator).
    unfold expandYear.
    destruct (String.length year =? 2)%nat; auto.
    rewrite parseInt_numeric by (split; auto).
    destruct (decimal year <? 50)%Z; reflexivity.
  - intros s Hne Hc. unfold formatSpanishDate.
    destruct s as [|c s]; [contradiction|]. cbn [isEmpty].
    assert (Hlen : List.length (splitOn (inStr "./-") (String c s))
                   = S (countChars isSeparator (String c s)))
      by apply splitAcc_length.
    destruct (splitOn (inStr "./-") (String c s)) as [|a [|b [|d [|e l]]]];
      auto.
    exfalso. apply Hc. cbn [List.length] in Hlen. lia.
Qed.

(** The date 1.2.24. *)
Lemma formatSpanishDate_pivot_witness :
  numeric "1" /\ numeric "2" /\ numeric "24" /\
  formatSpanishDate (Some "1.2.24") = Some "2024-02-01".
Proof.
  assert (N1 : numeric "1") by (split; [discriminate|reflexivity]).
  assert (N2 : numeric "2") by (split; [discriminate|reflexivity]).
  assert (N3 : numeric "24") by (split; [discriminate|reflexivity]).
  split; [exact N1|split; [exact N2|split; [exact N3|]]].
  exact (proj1 (proj1 formatSpanishDate_pivot "1" "2" "24" "."%char "."%char
                  N1 N2 N3 eq_refl eq_refl)).
Defined.

End DateFacts.

(** ** Computations of the parser *)

Module RunFacts.
Import Parser Notions.
Local Open Scope list_scope.

Lemma silent_ret {A : Type} (a : A) : silent (ret a).
Proof. intros li. reflexivity. Qed.

Lemma silent_bind {A B : Type} (c : M A) (f : A -> M B) :
  silent c -> (forall a, silent (f a)) -> silent (bind c f).
Proof.
  intros Hc Hf li. unfold bind. simpl. now rewrite Hc, Hf.
Qed.

Lemma silent_registryTest (s : string) : silent (registryTest s).
Proof.
  intros li. unfold registryTest.
  now destruct (Regex.execAt registryPattern s li).
Qed.

Lemma silent_filterM {A : Type} (p : A -> M bool) (l : list A) :
  (forall x, silent (p x)) -> silent (filterM p l).
Proof.
  intros Hp. induction l as [|x r IH]; simpl.
  - apply silent_ret.
  - apply silent_bind; auto. intros b.
    apply silent_bind; auto. intros r'. apply silent_ret.
Qed.

Lemma silent_foldM {A B : Type} (f : B -> A -> M B) (l : list A) (b : B) :
  (forall b x, silent (f b x)) -> silent (foldM f l b).
Proof.
  intros Hf. revert b. induction l as [|x r IH]; intros b; simpl.
  - apply silent_ret.
  - apply silent_bind; auto.
Qed.

Lemma printed_bind {A B : Type} (c : M A) (f : A -> M B) (li : nat) :
  printed (bind c f li) =
  printed (c li) ++ printed (f (value (c li)) (lastIndex (c li))).
Proof. reflexivity. Qed.

Lemma value_bind {A B : Type} (c : M A) (f : A -> M B) (li : nat) :
  value (bind c f li) = value (f (value (c li)) (lastIndex (c li))).
Proof. reflexivity. Qed.

Lemma lastIndex_bind {A B : Type} (c : M A) (f : A -> M B) (li : nat) :
  lastIndex (bind c f li) = lastIndex (f (value (c li)) (lastIndex (c li))).
Proof. reflexivity. Qed.

Lemma ensures_ret {A : Type} (a : A) (P : A -> Prop) : P a -> ensures (ret a) P.
Proof. intros H li. exact H. Qed.

Lemma ensures_bind {A B : Type} (c : M A) (f : A -> M B)
  (P : A -> Prop) (Q : B -> Prop) :
  ensures c P -> (forall a, P a -> ensures (f a) Q) -> ensures (bind c f) Q.
Proof. intros Hc Hf li. rewrite value_bind. apply Hf, Hc. Qed.

Lemma ensures_weaken {A : Type} (c : M A) (P Q : A -> Prop) :
  ensures c P -> (forall a, P a -> Q a) -> ensures c Q.
Proof. intros Hc H li. apply H, Hc. Qed.

Lemma ensures_true {A : Type} (c : M A) : ensures c (fun _ => True).
Proof. intros li. exact I. Qed.

(** A loop keeps an invariant that every turn keeps. *)
Lemma ensures_foldM {A B : Type} (f : B -> A -> M B) (l : list A) (b : B)
  (Inv : B -> Prop) :
  (forall b x, In x l -> Inv b -> ensures (f b x) Inv) ->
  Inv b -> ensures (foldM f l b) Inv.
Proof.
  revert b. induction l as [|x r IH]; intros b Hf Hb; simpl.
  - now apply ensures_ret.
  - apply ensures_bind with (P := Inv).
    + apply Hf; simpl; auto.
    + intros b' Hb'. apply IH; auto. intros b0 y Hy. apply Hf. simpl. auto.
Qed.

(** What a filter keeps passed the test, at some [lastIndex]. *)
Lemma ensures_filterM {A : Type} (p : A -> M bool) (l : list A) (Q : A -> Prop) :
  (forall x li, value (p x li) = true -> Q x) ->
  ensures (filterM p l) (Forall Q).
Proof.
  intros Hp. induction l as [|x r IH]; simpl.
  - apply ensures_ret. constructor.
  - intros li. rewrite !value_bind. simpl.
    destruct (value (p x li)) eqn:E.
    + constructor; [eapply Hp, E | apply IH].
    + apply IH.
Qed.

Lemma steady_ret {A : Type} (a : A) : steady (ret a).
Proof. intros li1 li2. reflexivity. Qed.

Lemma steady_bind {A B : Type} (c : M A) (f : A -> M B) :
  steady c -> (forall a, steady (f a)) -> steady (bind c f).
Proof.
  intros Hc Hf li1 li2. rewrite !value_bind, (Hc li1 li2). apply Hf.
Qed.

End RunFacts.

(** ** Determinism of a parse *)

Module Determinism.
Import Parser Notions RunFacts.
Local Open Scope list_scope.

(** The first step of a parse, [fullEntry.match(this.registryPattern)],
    resets [lastIndex]; the whole run is the same from any value of it. *)
Lemma parseEntry_from_any_lastIndex terms (fullEntry : string) (li1 li2 : nat) :
  parseEntry terms fullEntry li1 = parseEntry terms fullEntry li2.
Proof. reflexivity. Qed.

Lemma steady_parseEntry {B : Type} terms (fullEntry : string) (f : BormeResult -> M B) :
  steady (bind (parseEntry terms fullEntry) f).
Proof.
  intros li1 li2. rewrite !value_bind.
  now rewrite (parseEntry_from_any_lastIndex terms fullEntry li1 li2).
Qed.

Lemma steady_parseBormeEntry terms (fullEntry : option string) :
  steady (parseBormeEntry terms fullEntry).
Proof.
  unfold parseBormeEntry. destruct fullEntry as [e|]; [|apply steady_ret].
  destruct (isEmpty e); [apply steady_ret | apply steady_parseEntry].
Qed.

Lemma steady_parseCompany terms (rawData : RawData) :
  steady (parseCompany terms rawData).
Proof.
  unfold parseCompany. cbv zeta.
  apply steady_bind.
  - destruct (truthyOpt (full_entry rawData)); [|apply steady_ret].
    destruct (full_entry rawData); [apply steady_parseEntry | apply steady_ret].
  - intros parsed. apply steady_bind.
    + match goal with |- steady (if ?b then _ else _) => destruct b end;
        [|apply steady_ret].
      match goal with |- steady (match ?t with _ => _ end) => destruct t end;
        [apply steady_parseEntry | apply steady_ret].
    + intros fallback. apply steady_ret.
Qed.

Lemma steady_parseSpanishCompanyData terms (rawData : JsValue) :
  steady (parseSpanishCompanyData terms rawData).
Proof.
  destruct rawData; simpl; try apply steady_ret;
    (apply steady_bind; [apply steady_parseCompany | intros; apply steady_ret]).
Qed.

Lemma noParsedOfficers_untouched terms (fields : RawData) (li : nat) :
  noParsedOfficers (JObject fields) ->
  snd (value (parseCompany terms fields li)) = fields.
Proof.
  intros Hno. unfold parseCompany. cbv zeta. rewrite !value_bind.
  cbn [ret value snd]. simpl in Hno.
  destruct (parsed_details fields) as [pd|] eqn:Epd; [|reflexivity].
  destruct (_ =? 0)%nat; [|reflexivity].
  destruct Hno as [N1 [N2 [N3 [N4 N5]]]].
  unfold mergeParsedOfficers. rewrite N5. cbn [snd].
  destruct fields. simpl in *. subst. reflexivity.
Qed.

(** The array taken over from [parsed_details] is shared with the
    result: a second parse of the same object finds in it the
    administrator that the first parse pushed. *)
Remark merged_array_is_shared :
  let first := parseSpanishCompanyData sampleTerms (JObject sharedArrayInput) 0 in
  let second :=
    parseSpanishCompanyData sampleTerms
      (argumentAfter (value first) (JObject sharedArrayInput)) (lastIndex first) in
  List.length (officersOf (value first)) = 1 /\
  List.length (officersOf (value second)) = 2.
Proof. split; vm_compute; reflexivity. Qed.



End Determinism.

(** ** The strategy chain *)

Module ChainFacts.
Import Parser Notions RunFacts.
Local Open Scope list_scope.

Create HintDb silent.

#[local] Hint Resolve silent_ret silent_registryTest : silent.

(** One step of a proof that a computation prints nothing: a known
    computation, a bind, a loop, or a case distinction of the code. *)
Ltac silent_step :=
  lazymatch goal with
  | |- silent (ret _) => apply silent_ret
  | |- silent (registryTest _) => apply silent_registryTest
  | |- silent (bind _ _) => apply silent_bind
  | |- silent (foldM _ _ _) => apply silent_foldM
  | |- silent (filterM _ _) => apply silent_filterM
  | |- silent (match ?x with _ => _ end) => destruct x
  | |- forall _, _ => intro
  | |- silent _ => solve [auto with silent]
  end.
Ltac silent_tac := cbv zeta; repeat silent_step.

Section WithTerms.
Variable terms : Terms.

Lemma silent_isValidSpanishName text : silent (isValidSpanishName terms text).
Proof. unfold isValidSpanishName. silent_tac. Qed.
#[local] Hint Resolve silent_isValidSpanishName : silent.

Lemma silent_validName n : silent (validName terms n).
Proof. unfold validName. silent_tac. Qed.
#[local] Hint Resolve silent_validName : silent.

Lemma silent_extractNames namesPart : silent (extractNames terms namesPart).
Proof. unfold extractNames. silent_tac. Qed.
#[local] Hint Resolve silent_extractNames : silent.

Lemma silent_parseOfficersFromSection section category :
  silent (parseOfficersFromSection terms section category).
Proof. unfold parseOfficersFromSection. silent_tac. Qed.
#[local] Hint Resolve silent_parseOfficersFromSection : silent.

Lemma silent_officersFromSections budget sections category officers :
  silent (officersFromSections terms budget sections category officers).
Proof.
  revert sections officers.
  induction budget as [|budget IH]; intros [|section r] officers; simpl;
    silent_tac.
Qed.
#[local] Hint Resolve silent_officersFromSections : silent.

Lemma silent_parseOfficersFromSections sections startIndex category :
  silent (parseOfficersFromSections terms sections startIndex category).
Proof. unfold parseOfficersFromSections. silent_tac. Qed.
#[local] Hint Resolve silent_parseOfficersFromSections : silent.

Lemma silent_trySocioPatterns patterns section :
  silent (trySocioPatterns terms patterns section).
Proof.
  induction patterns as [|pattern r IH]; simpl; silent_tac; apply IH.
Qed.
#[local] Hint Resolve silent_trySocioPatterns : silent.

Lemma silent_socioFromSections budget isFirst sections :
  silent (socioFromSections terms budget isFirst sections).
Proof.
  revert isFirst sections.
  induction budget as [|budget IH]; intros isFirst [|section r]; simpl;
    silent_tac; apply IH.
Qed.
#[local] Hint Resolve silent_socioFromSections : silent.

Lemma silent_parseSocioUnicoFromSections sections startIndex :
  silent (parseSocioUnicoFromSections terms sections startIndex).
Proof. unfold parseSocioUnicoFromSections. silent_tac. Qed.
#[local] Hint Resolve silent_parseSocioUnicoFromSections : silent.

Lemma silent_inlineFallback content category :
  silent (parseOfficersFromInlineContentFallback terms content category).
Proof. unfold parseOfficersFromInlineContentFallback. silent_tac. Qed.
#[local] Hint Resolve silent_inlineFallback : silent.

Lemma silent_parseOfficersFromInlineContent content category :
  silent (parseOfficersFromInlineContent terms content category).
Proof. unfold parseOfficersFromInlineContent. silent_tac. Qed.
#[local] Hint Resolve silent_parseOfficersFromInlineContent : silent.

Lemma silent_handleCategory sections i nextCategoryIndex category result :
  silent (handleCategory terms sections i nextCategoryIndex category result).
Proof. unfold handleCategory. silent_tac. Qed.
#[local] Hint Resolve silent_handleCategory : silent.

Lemma silent_sectionLoop turns sections i result :
  silent (sectionLoop terms turns sections i result).
Proof.
  revert i result. induction turns as [|turns IH]; intros i result; simpl;
    silent_tac; apply IH.
Qed.
#[local] Hint Resolve silent_sectionLoop : silent.

(** What each strategy prints: its banner and nothing else. *)
Lemma printed_log_then {A : Type} (banner : string) (c : M A) (li : nat) :
  silent c -> printed (bind (log banner) (fun _ => c) li) = [banner].
Proof. intros H. rewrite printed_bind. cbv beta. now rewrite H. Qed.

Lemma printed_inline fullEntry result li :
  printed (extractInlineOfficerCategories terms fullEntry result li)
  = [bannerInline].
Proof.
  unfold extractInlineOfficerCategories. apply printed_log_then. silent_tac.
Qed.

Lemma printed_byCategories fullEntry result li :
  printed (extractByCategories terms fullEntry result li)
  = [bannerInline; bannerSections].
Proof.
  unfold extractByCategories. cbv zeta.
  rewrite printed_bind, printed_inline. cbv beta.
  rewrite printed_log_then; [reflexivity|]. silent_tac.
Qed.

Lemma printed_direct fullEntry result li :
  printed (extractByDirectPatterns terms fullEntry result li) = [bannerDirect].
Proof.
  unfold extractByDirectPatterns. cbv zeta. apply printed_log_then. silent_tac.
Qed.

Lemma printed_proximity fullEntry result li :
  printed (extractByNameProximity terms fullEntry result li) = [bannerProximity].
Proof.
  unfold extractByNameProximity. apply printed_log_then. silent_tac.
Qed.

End WithTerms.



End ChainFacts.

(** ** Where the officers of a parse come from *)

Module OfficerFacts.
Import Parser Notions RunFacts.
Local Open Scope list_scope.

(** A case distinction on the test of a conditional of the code. *)
Ltac split_if :=
  lazymatch goal with
  | |- ensures (if ?b then _ else _) _ => destruct b
  end.

Section WithTerms.
Variable terms : Terms.

Local Abbreviation resolved := (Notions.resolved terms).
Local Abbreviation positionOrigin := (Notions.positionOrigin terms).
Local Abbreviation sound := (Notions.sound terms).
Local Abbreviation soundOfficers := (Notions.soundOfficers terms).
Local Abbreviation soundResult := (Notions.soundResult terms).
Local Abbreviation soundOption := (Notions.soundOption terms).

(** *** Name validation *)

Lemma anyChar_weaken (p q : ascii -> bool) (s : string) :
  (forall c, p c = true -> q c = true) ->
  anyChar q s = false -> anyChar p s = false.
Proof.
  intros H. induction s as [|c s IH]; simpl; auto.
  intros E. apply orb_false_iff in E. destruct E as [Ec Es].
  rewrite (IH Es), orb_false_r.
  destruct (p c) eqn:Hp; auto. apply H in Hp. congruence.
Qed.

Lemma isValidSpanishName_shape (text : string) (li : nat) :
  value (isValidSpanishName terms text li) = true -> validShape text.
Proof.
  unfold isValidSpanishName.
  destruct (isEmpty text || (String.length text <? 3)%nat); [discriminate|].
  destruct (Nat.ltb_spec (List.length (nameWords text)) 2) as [|Hwords];
    [discriminate|].
  destruct (anyChar forbiddenInName text) eqn:Hforbidden; [discriminate|].
  destruct (50 <? String.length text)%nat; [discriminate|].
  rewrite value_bind.
  destruct (value (registryTest text li)); [discriminate|].
  destruct (existsb _ (officersPositions terms)); [discriminate|].
  destruct (isBusinessActivityDescription text); [discriminate|].
  destruct (existsb _ businessWords); [discriminate|].
  destruct (startsWithCapital text) eqn:Hcap; [|discriminate].
  intros _. repeat split; auto.
  apply (anyChar_weaken isDigit forbiddenInName); auto.
  intros c Hc. unfold forbiddenInName. now rewrite Hc.
Qed.

Lemma validName_shape (n : string) (li : nat) :
  value (validName terms n li) = true -> validShape n.
Proof.
  unfold validName.
  destruct (truthy n && (2 <? String.length n)%nat); [|discriminate].
  apply isValidSpanishName_shape.
Qed.

Lemma ensures_extractNames (namesPart : string) :
  ensures (extractNames terms namesPart) (Forall validShape).
Proof. apply ensures_filterM, validName_shape. Qed.

(** *** Lists of officers *)

Lemma sound_mkOfficers names pos raw cat :
  Forall validShape names -> positionOrigin pos ->
  Forall sound (mkOfficers names pos raw cat).
Proof.
  intros Hn Hp. unfold mkOfficers. apply Forall_map.
  eapply Forall_impl; [|exact Hn]. intros n H. split; auto.
Qed.

Lemma sound_pushOfficers key more o :
  soundOfficers o -> Forall sound more -> soundOfficers (pushOfficers key more o).
Proof.
  unfold Notions.soundOfficers, allOfficers. intros Ho Hm.
  rewrite !Forall_app in Ho. destruct Ho as [H1 [H2 [H3 H4]]].
  destruct key; simpl; rewrite !Forall_app; auto 10.
Qed.

Lemma dedupOfficers_incl seen l o :
  In o (dedupOfficers seen l) -> In o l.
Proof.
  revert seen. induction l as [|x r IH]; intros seen; simpl; auto.
  destruct (existsb _ seen); simpl; intros H.
  - right. eapply IH, H.
  - destruct H as [<-|H]; auto. right. eapply IH, H.
Qed.

Lemma sound_dedup l : Forall sound l -> Forall sound (dedupOfficers [] l).
Proof.
  rewrite !Forall_forall. intros H o Ho. eapply H, dedupOfficers_incl, Ho.
Qed.

Lemma sound_deduplicateOfficers o :
  soundOfficers o -> soundOfficers (deduplicateOfficers o).
Proof.
  unfold Notions.soundOfficers, allOfficers. simpl. rewrite !Forall_app.
  intros [H1 [H2 [H3 H4]]]. auto using sound_dedup.
Qed.

Lemma sound_noOfficers : soundOfficers noOfficers.
Proof. constructor. Qed.

Lemma sound_push key more r :
  soundResult r -> Forall sound more ->
  soundResult (withOfficers (pushOfficers key more) r).
Proof. intros Hr Hm. exact (sound_pushOfficers key more (officers r) Hr Hm). Qed.

Lemma sound_pushCategory c r : soundResult r -> soundResult (pushCategory c r).
Proof. intros H. exact H. Qed.

Lemma sound_setConstitution c r :
  soundResult r -> soundResult (setConstitution c r).
Proof. intros H. exact H. Qed.

Lemma sound_setNewAddress a r :
  soundResult r -> soundResult (setNewAddress a r).
Proof. intros H. exact H. Qed.

Lemma sound_dedupResult r :
  soundResult r -> soundResult (withOfficers deduplicateOfficers r).
Proof. intros H. exact (sound_deduplicateOfficers (officers r) H). Qed.

Lemma resolved_origin positionText p :
  findOfficerPosition terms positionText = Some p -> positionOrigin p.
Proof. intros H. left. now exists positionText. Qed.

(** *** The range of the resolution cascade *)

Lemma findTruthy_In p l x : findTruthy p l = Some x -> In x l.
Proof.
  unfold findTruthy. destruct (find p l) eqn:E; [|discriminate].
  destruct (truthy s); [|discriminate].
  intros [= <-]. eapply find_some, E.
Qed.

Lemma findOfficerPositionFallback_range positionText p :
  findOfficerPositionFallback positionText = Some p ->
  In p (map snd fallbackPatterns).
Proof.
  unfold findOfficerPositionFallback.
  destruct (find _ fallbackPatterns) as [[r q]|] eqn:E; [|discriminate].
  intros [= <-]. apply find_some in E. destruct E as [E _].
  apply (in_map snd) in E. exact E.
Qed.

(** The cascade returns an entry of the vocabulary, an expansion of the
    abbreviation table or an expansion of the fallback table. *)
Lemma findOfficerPosition_range positionText p :
  findOfficerPosition terms positionText = Some p ->
  In p (officersPositions terms) \/
  In p (map snd commonPatterns) \/
  In p (map snd fallbackPatterns).
Proof.
  unfold findOfficerPosition. cbv zeta.
  destruct (isBusinessActivityDescription positionText); [discriminate|].
  destruct (findTruthy _ (officersPositions terms)) as [pos|] eqn:E1.
  { intros [= <-]. left. eapply findTruthy_In, E1. }
  destruct (find _ commonPatterns) as [[pat q]|] eqn:E2.
  { intros [= <-]. right. left. apply find_some in E2. destruct E2 as [E2 _].
    apply (in_map snd) in E2. exact E2. }
  lazymatch goal with
  | |- context [findTruthy ?f ?l] => destruct (findTruthy f l) as [pos|] eqn:E3
  end.
  { intros [= <-]. left. eapply findTruthy_In, E3. }
  intros H. right. right. eapply findOfficerPositionFallback_range, H.
Qed.

(** The cascade never returns the empty string. *)
Lemma findOfficerPosition_truthy positionText p :
  findOfficerPosition terms positionText = Some p -> truthy p = true.
Proof.
  unfold findOfficerPosition. cbv zeta.
  destruct (isBusinessActivityDescription positionText); [discriminate|].
  assert (T : forall q l x, findTruthy q l = Some x -> truthy x = true).
  { intros q l x. unfold findTruthy. destruct (find q l); [|discriminate].
    destruct (truthy s) eqn:E; [|discriminate]. now intros [= <-]. }
  assert (F : forall l x, forallb truthy (map snd l) = true ->
                          In x (map (@snd string string) l) -> truthy x = true).
  { intros l x Hall Hx. rewrite forallb_forall in Hall. auto. }
  destruct (findTruthy _ (officersPositions terms)) as [pos|] eqn:E1.
  { intros [= <-]. eapply T, E1. }
  destruct (find _ commonPatterns) as [[pat q]|] eqn:E2.
  { intros [= <-]. apply find_some in E2. destruct E2 as [E2 _].
    apply (in_map snd) in E2. apply (F commonPatterns); [reflexivity | exact E2]. }
  lazymatch goal with
  | |- context [findTruthy ?f ?l] => destruct (findTruthy f l) as [pos|] eqn:E3
  end.
  { intros [= <-]. eapply T, E3. }
  intros H. apply findOfficerPositionFallback_range in H.
  assert (G : forallb truthy (map snd fallbackPatterns) = true) by reflexivity.
  rewrite forallb_forall in G. auto.
Qed.

(** *** The strategies *)

Lemma ensures_parseOfficersFromSection section category :
  ensures (parseOfficersFromSection terms section category) (Forall sound).
Proof.
  unfold parseOfficersFromSection.
  destruct (indexOf ":" section) as [colonIndex|]; [|apply ensures_ret; constructor].
  cbv zeta.
  destruct (findOfficerPosition terms (beforeColon section colonIndex))
    as [officerPosition|] eqn:Hpos; [|apply ensures_ret; constructor].
  destruct (truthy officerPosition && truthy (afterColon section colonIndex));
    [|apply ensures_ret; constructor].
  eapply ensures_bind.
  - apply ensures_filterM, isValidSpanishName_shape.
  - intros valid Hvalid. apply ensures_ret, sound_mkOfficers; auto.
    eapply resolved_origin, Hpos.
Qed.

Lemma ensures_officersFromSections budget sections category officers :
  Forall sound officers ->
  ensures (officersFromSections terms budget sections category officers)
          (Forall sound).
Proof.
  revert sections officers.
  induction budget as [|budget IH]; intros [|section r] officers Ho;
    cbn [officersFromSections]; try (apply ensures_ret; assumption).
  eapply ensures_bind; [apply ensures_true|]. intros isRegistry _.
  destruct isRegistry; [apply ensures_ret; assumption|].
  destruct (findTopLevelCategory terms section); [apply ensures_ret; assumption|].
  eapply ensures_bind; [apply ensures_parseOfficersFromSection|].
  intros sectionOfficers Hs. apply IH. apply Forall_app. auto.
Qed.

Lemma ensures_parseOfficersFromSections sections startIndex category :
  ensures (parseOfficersFromSections terms sections startIndex category)
          (Forall sound).
Proof.
  unfold parseOfficersFromSections.
  apply ensures_officersFromSections. constructor.
Qed.

Lemma sound_socioUnico socioName section :
  validShape socioName -> sound (socioUnico socioName section).
Proof. intros H. split; auto. right. left. reflexivity. Qed.

Lemma ensures_trySocioPatterns patterns section :
  ensures (trySocioPatterns terms patterns section) soundOption.
Proof.
  induction patterns as [|pattern r IH]; cbn [trySocioPatterns];
    [apply ensures_ret; exact I|].
  destruct (Regex.exec pattern section) as [x|]; [|exact IH].
  intros li. rewrite value_bind.
  destruct (value (validName terms _ li)) eqn:E.
  - simpl. apply sound_socioUnico. eapply validName_shape, E.
  - apply IH.
Qed.

Lemma ensures_socioFromSections budget isFirst sections :
  ensures (socioFromSections terms budget isFirst sections) (Forall sound).
Proof.
  revert isFirst sections.
  induction budget as [|budget IH]; intros isFirst [|section r];
    cbn [socioFromSections]; try (apply ensures_ret; constructor).
  eapply ensures_bind; [apply ensures_true|]. intros isRegistry _.
  destruct isRegistry; [apply ensures_ret; constructor|].
  destruct (findTopLevelCategory terms section); [apply ensures_ret; constructor|].
  eapply ensures_bind; [apply ensures_trySocioPatterns|].
  intros [officer|] Hfound.
  { apply ensures_ret. constructor; auto. }
  destruct isFirst; [|apply IH].
  destruct (truthy (cleanOfficerName section)); [|apply IH].
  intros li. rewrite value_bind.
  destruct (value (isValidSpanishName terms _ li)) eqn:E; [|apply IH].
  rewrite value_bind.
  destruct (negb _); [|apply IH].
  simpl. constructor; [|constructor].
  apply sound_socioUnico. eapply isValidSpanishName_shape, E.
Qed.

Lemma ensures_parseSocioUnicoFromSections sections startIndex :
  ensures (parseSocioUnicoFromSections terms sections startIndex) (Forall sound).
Proof.
  unfold parseSocioUnicoFromSections. apply ensures_socioFromSections.
Qed.

Lemma ensures_inlineFallback content category :
  ensures (parseOfficersFromInlineContentFallback terms content category)
          (Forall sound).
Proof.
  unfold parseOfficersFromInlineContentFallback. cbv zeta.
  apply ensures_foldM; [|constructor].
  intros officers part _ Ho.
  eapply ensures_bind; [apply ensures_true|]. intros isRegistry _.
  destruct isRegistry; [apply ensures_ret; assumption|].
  destruct (indexOf ":" part) as [[|i]|]; try (apply ensures_ret; assumption).
  destruct (findOfficerPosition terms _) as [officerPosition|] eqn:Hpos;
    [|apply ensures_ret; assumption].
  match goal with |- ensures (if ?b then _ else _) _ => destruct b end;
    [|apply ensures_ret; assumption].
  eapply ensures_bind; [apply ensures_extractNames|].
  intros names Hn. apply ensures_ret, Forall_app. split; auto.
  apply sound_mkOfficers; auto. eapply resolved_origin, Hpos.
Qed.

Lemma ensures_parseOfficersFromInlineContent content category :
  ensures (parseOfficersFromInlineContent terms content category)
          (Forall sound).
Proof.
  unfold parseOfficersFromInlineContent. cbv zeta.
  eapply ensures_bind with (P := Forall sound).
  - apply ensures_foldM; [|constructor].
    intros officers position _ Ho.
    apply ensures_foldM; [|assumption].
    intros officers' x _ Ho'.
    match goal with |- ensures (if ?b then _ else _) _ => destruct b end;
      [|apply ensures_ret; assumption].
    destruct (findOfficerPosition terms position) as [officerPosition|] eqn:Hpos;
      [|apply ensures_ret; assumption].
    destruct (truthy officerPosition); [|apply ensures_ret; assumption].
    eapply ensures_bind; [apply ensures_extractNames|].
    intros names Hn. apply ensures_ret, Forall_app. split; auto.
    apply sound_mkOfficers; auto. eapply resolved_origin, Hpos.
  - intros [|o officers] Ho.
    + apply ensures_inlineFallback.
    + apply ensures_ret. assumption.
Qed.

Lemma ensures_inline fullEntry result :
  soundResult result ->
  ensures (extractInlineOfficerCategories terms fullEntry result) soundResult.
Proof.
  intros Hr. unfold extractInlineOfficerCategories.
  eapply ensures_bind; [apply ensures_true|]. intros _ _.
  apply ensures_foldM; [|assumption].
  intros result1 category _ H1. cbv zeta.
  apply ensures_foldM; [|assumption].
  intros result2 x _ H2.
  destruct (truthy _); [|apply ensures_ret; assumption].
  eapply ensures_bind; [apply ensures_parseOfficersFromInlineContent|].
  intros officers Ho. apply ensures_ret.
  apply sound_push; auto using sound_pushCategory.
Qed.

Lemma ensures_handleCategory sections i nextCategoryIndex category result :
  soundResult result ->
  ensures (handleCategory terms sections i nextCategoryIndex category result)
          soundResult.
Proof.
  intros Hr. unfold handleCategory.
  split_if.
  { eapply ensures_bind; [apply ensures_parseOfficersFromSections|].
    intros officersData Ho. apply ensures_ret.
    apply sound_push; auto. }
  split_if.
  { eapply ensures_bind; [apply ensures_parseSocioUnicoFromSections|].
    intros socio Hs. apply ensures_ret.
    apply sound_push; auto. }
  split_if.
  { cbv zeta.
    eapply ensures_bind; [apply ensures_parseOfficersFromSections|].
    intros officersData Ho. apply ensures_ret.
    apply sound_push; auto using sound_setConstitution. }
  split_if; [|apply ensures_ret; assumption].
  destruct (nth_error sections (S i)); [|apply ensures_ret; assumption].
  split_if; [|apply ensures_ret; assumption].
  cbv zeta. split_if; apply ensures_ret; auto using sound_setNewAddress.
Qed.

Lemma ensures_sectionLoop turns sections i result :
  soundResult result ->
  ensures (sectionLoop terms turns sections i result) soundResult.
Proof.
  revert i result. induction turns as [|turns IH]; intros i result Hr;
    cbn [sectionLoop].
  { apply ensures_ret. assumption. }
  destruct (nth_error sections i) as [section|]; [|apply ensures_ret; assumption].
  destruct (findTopLevelCategoryExact terms section) as [category|];
    [|apply IH; assumption].
  destruct (negb _); [|apply IH; assumption].
  eapply ensures_bind.
  - apply ensures_handleCategory, sound_pushCategory, Hr.
  - intros result' Hr'. apply IH. assumption.
Qed.

Lemma ensures_byCategories fullEntry result :
  soundResult result ->
  ensures (extractByCategories terms fullEntry result) soundResult.
Proof.
  intros Hr. unfold extractByCategories.
  eapply ensures_bind; [apply ensures_inline, Hr|].
  intros result1 H1. cbv zeta.
  eapply ensures_bind; [apply ensures_true|]. intros _ _.
  eapply ensures_bind; [apply ensures_sectionLoop, H1|].
  intros result2 H2. apply ensures_ret, sound_dedupResult, H2.
Qed.

Lemma ensures_direct fullEntry result :
  soundResult result ->
  ensures (extractByDirectPatterns terms fullEntry result) soundResult.
Proof.
  intros Hr. unfold extractByDirectPatterns. cbv zeta.
  eapply ensures_bind; [apply ensures_true|]. intros _ _.
  apply ensures_foldM; [|assumption].
  intros result1 line _ H1.
  eapply ensures_bind; [apply ensures_true|]. intros isRegistry _.
  destruct isRegistry; [apply ensures_ret; assumption|].
  destruct (findTopLevelCategory terms line); [apply ensures_ret; assumption|].
  destruct (isBusinessActivityDescription line); [apply ensures_ret; assumption|].
  destruct (indexOf ":" line) as [[|i]|]; try (apply ensures_ret; assumption).
  destruct (findOfficerPosition terms _) as [officerPosition|] eqn:Hpos;
    [|apply ensures_ret; assumption].
  match goal with |- ensures (if ?b then _ else _) _ => destruct b end;
    [|apply ensures_ret; assumption].
  eapply ensures_bind; [apply ensures_extractNames|].
  intros names Hn. apply ensures_ret.
  apply sound_push; auto.
  apply sound_mkOfficers; auto. eapply resolved_origin, Hpos.
Qed.

Lemma ensures_proximity fullEntry result :
  soundResult result ->
  ensures (extractByNameProximity terms fullEntry result) soundResult.
Proof.
  intros Hr. unfold extractByNameProximity.
  eapply ensures_bind; [apply ensures_true|]. intros _ _.
  apply ensures_foldM; [|assumption].
  intros result1 keyword Hkeyword H1.
  apply ensures_foldM; [|assumption].
  intros result2 x _ H2. cbv zeta.
  intros li. rewrite value_bind.
  destruct (value (isValidSpanishName terms _ li)) eqn:E; [|exact H2].
  destruct (negb _); [|exact H2].
  apply sound_push; auto.
  constructor; [|constructor]. split.
  - eapply isValidSpanishName_shape, E.
  - cbn [position]. destruct (findOfficerPosition terms keyword) as [p|] eqn:Hpos.
    + rewrite (findOfficerPosition_truthy _ _ Hpos).
      eapply resolved_origin, Hpos.
    + right. right. auto.
Qed.

Lemma ensures_extractOfficersEnhanced fullEntry result :
  soundResult result ->
  ensures (extractOfficersEnhanced terms fullEntry result) soundResult.
Proof.
  intros Hr. unfold extractOfficersEnhanced.
  eapply ensures_bind; [apply ensures_byCategories, Hr|].
  intros result1 H1.
  eapply ensures_bind with (P := soundResult).
  - destruct (_ =? 0)%nat; [apply ensures_direct, H1 | apply ensures_ret, H1].
  - intros result2 H2.
    destruct (_ =? 0)%nat; [apply ensures_proximity, H2 | apply ensures_ret, H2].
Qed.

Lemma officers_extractNameChanges fullEntry result :
  officers (extractNameChanges fullEntry result) = officers result.
Proof. unfold extractNameChanges. now destruct (isEmpty fullEntry). Qed.

(** Every officer of a parsed entry has a valid name and a position of
    one of the three origins. *)
Lemma ensures_parseEntry fullEntry :
  ensures (parseEntry terms fullEntry) soundResult.
Proof.
  unfold parseEntry.
  eapply ensures_bind; [apply ensures_true|]. intros registryMatches _.
  cbv zeta.
  eapply ensures_bind.
  - apply ensures_extractOfficersEnhanced. apply sound_noOfficers.
  - intros result Hr. apply ensures_ret.
    unfold Notions.soundResult. cbn [officers].
    rewrite officers_extractNameChanges. exact Hr.
Qed.

End WithTerms.
End OfficerFacts.

(** ** The matcher *)

Module RegexFacts.
Import Regex Notions StringFacts.
Local Open Scope list_scope.

Lemma drop_next (n : nat) (s : string) (c : ascii) (r : string) :
  drop n s = String c r -> drop (S n) s = r.
Proof.
  revert s. induction n as [|n IH]; intros s H.
  - simpl in H. subst s. reflexivity.
  - destruct s as [|d s]; [discriminate|]. simpl in *. auto.
Qed.

Lemma inSubject_setCaps s st c :
  Notions.inSubject s st -> Notions.inSubject s (setCaps st c).
Proof. intros H. exact H. Qed.

Section Continuations.
Variable s : string.

Local Abbreviation inSubject := (Notions.inSubject s).
Local Abbreviation reachesContinuation := (Notions.reachesContinuation s).

Lemma repLoop_reaches ma greedy :
  reachesContinuation ma ->
  forall fuel lo hi, reachesContinuation
    (fun st k => repLoop ma greedy k fuel lo hi st).
Proof.
  intros Hma fuel.
  induction fuel as [|fuel IH]; intros lo hi st k res Hst; simpl.
  - discriminate.
  - destruct (hiZero hi); [intros H; eauto|].
    assert (Hiter : forall res',
      ma st (fun st' =>
        if ((lo =? 0) && (pos st' =? pos st))%nat then None
        else repLoop ma greedy k fuel (Nat.pred lo) (option_map Nat.pred hi) st')
      = Some res' -> exists st', inSubject st' /\ k st' = Some res').
    { intros res' H. apply Hma in H; auto. destruct H as [st1 [H1 H]].
      destruct ((lo =? 0) && (pos st1 =? pos st))%nat; [discriminate|].
      eapply IH; eauto. }
    destruct (0 <? lo)%nat; [apply Hiter|].
    destruct greedy.
    + destruct (ma st _) eqn:E.
      * intros [= <-]. apply Hiter. reflexivity.
      * intros H. eauto.
    + destruct (k st) eqn:E.
      * intros [= <-]. eauto.
      * apply Hiter.
Qed.

Lemma m_reaches (r : re) : reachesContinuation (m r).
Proof.
  induction r as [p| |a IHa b IHb|a IHa b IHb|greedy lo hi a IHa|i a IHa|ml|ml| |a IHa];
    intros st k res Hst; cbn [m].
  - destruct (rest st) as [|c r'] eqn:E; [discriminate|].
    destruct (p c); [|discriminate]. intros H.
    eexists. split; [|exact H]. unfold Notions.inSubject in *. simpl.
    rewrite Hst in E. symmetry. eapply drop_next, E.
  - eauto.
  - intros H. apply IHa in H; auto. destruct H as [st1 [H1 H]].
    apply IHb in H; auto.
  - destruct (m a st k) eqn:E.
    + intros [= <-]. eapply IHa; eauto.
    + intros H. eapply IHb; eauto.
  - intros H.
    exact (repLoop_reaches (m a) greedy IHa _ lo hi st k res Hst H).
  - intros H. apply IHa in H; auto. destruct H as [st1 [H1 H]].
    eexists. split; [|exact H]. now apply inSubject_setCaps.
  - destruct (prev st) as [c|]; [destruct (ml && isLineTerminator c)|];
      try discriminate; eauto.
  - destruct (next st) as [c|]; [destruct (ml && isLineTerminator c)|];
      try discriminate; eauto.
  - destruct (xorb _ _); [eauto|discriminate].
  - destruct (m a st Some) as [st1|]; [|discriminate].
    intros H. eexists. split; [|exact H]. now apply inSubject_setCaps.
Qed.

Lemma slice_empty (n : nat) : slice n n s = "".
Proof. unfold slice. rewrite Nat.sub_diag. now destruct (drop n s). Qed.

Lemma slice_next (n e : nat) (c : ascii) (r : string) :
  drop n s = String c r -> S n <= e ->
  slice n e s = String c (slice (S n) e s).
Proof.
  intros H Hle. unfold slice. rewrite H, (drop_next n s c r H).
  replace (e - n) with (S (e - S n)) by lia. reflexivity.
Qed.

Lemma slice_length (a b : nat) : String.length (slice a b s) <= b - a.
Proof.
  unfold slice. generalize (drop a s) as t. generalize (b - a) as n.
  induction n as [|n IH]; intros [|c t]; simpl; try lia.
  specialize (IH t). lia.
Qed.

(** A bounded repetition of a character class consumes at most its bound
    of characters, all of the class, and leaves the captures alone. *)
Lemma repLoop_class (p : ascii -> bool) greedy k res :
  forall fuel lo h st,
    inSubject st ->
    repLoop (m (Chr p)) greedy k fuel lo (Some h) st = Some res ->
    exists st', inSubject st' /\ k st' = Some res /\ caps st' = caps st /\
      pos st <= pos st' /\ pos st' <= pos st + h /\
      allChars p (slice (pos st) (pos st') s) = true.
Proof.
  induction fuel as [|fuel IH]; intros lo h st Hst; simpl; [discriminate|].
  assert (Hstop : k st = Some res ->
    exists st', inSubject st' /\ k st' = Some res /\ caps st' = caps st /\
      pos st <= pos st' /\ pos st' <= pos st + h /\
      allChars p (slice (pos st) (pos st') s) = true).
  { intros H. exists st. rewrite slice_empty. repeat split; auto; lia. }
  destruct h as [|h]; [exact Hstop|]. cbn [hiZero option_map Nat.pred].
  assert (Hiter :
    match rest st with
    | String c r' =>
        if p c then
          (fun st' =>
             if ((lo =? 0) && (pos st' =? pos st))%nat then None
             else repLoop (m (Chr p)) greedy k fuel (Nat.pred lo) (Some h) st')
            (MState (S (pos st)) (Some c) r' (caps st))
        else None
    | EmptyString => None
    end = Some res ->
    exists st', inSubject st' /\ k st' = Some res /\ caps st' = caps st /\
      pos st <= pos st' /\ pos st' <= pos st + S h /\
      allChars p (slice (pos st) (pos st') s) = true).
  { destruct (rest st) as [|c r'] eqn:E; [discriminate|].
    destruct (p c) eqn:Hp; [|discriminate]. cbv beta.
    destruct ((lo =? 0) && (_ =? pos st))%nat; [discriminate|].
    intros H. unfold Notions.inSubject in Hst. rewrite Hst in E.
    apply IH in H; [|unfold Notions.inSubject; simpl; symmetry; eapply drop_next, E].
    destruct H as [st' [H1 [H2 [H3 [H4 [H5 H6]]]]]]. simpl in *.
    exists st'. repeat split; auto; try lia.
    rewrite (slice_next _ _ c r' E) by lia. simpl. now rewrite Hp, H6. }
  destruct (0 <? lo)%nat; [exact Hiter|].
  destruct greedy.
  - match goal with |- match ?t with _ => _ end = _ -> _ => destruct t eqn:E end.
    + intros [= <-]. apply Hiter. exact E.
    + exact Hstop.
  - destruct (k st) eqn:E.
    + intros [= <-]. auto.
    + exact Hiter.
Qed.

Lemma searchFrom_reaches (r : re) (t : string) :
  forall p pv b e,
    t = drop p s ->
    searchFrom r p pv t = Some (b, e) ->
    exists st, inSubject st /\ m r st Some = Some e.
Proof.
  induction t as [|c t IH]; intros p pv b e Ht; simpl.
  - destruct (m r (MState p pv "" []) Some) eqn:E; [|discriminate].
    intros [= _ <-]. eexists. split; [|exact E]. exact Ht.
  - destruct (m r (MState p pv (String c t) []) Some) eqn:E.
    + intros [= _ <-]. eexists. split; [|exact E]. exact Ht.
    + apply IH. symmetry. eapply drop_next. symmetry. exact Ht.
Qed.

End Continuations.
End RegexFacts.

(** ** Corporate events and the company status *)

Module EventFacts.
Import Parser Regex Notions RegexFacts StringFacts.
Local Open Scope list_scope.

(** The context of a dissolution is a run of at most 150 characters
    without a period. *)
Lemma dissolutionContext_window (fullEntry : string) :
  String.length (dissolutionContext fullEntry) <= 150 /\
  allChars notPeriod (dissolutionContext fullEntry) = true.
Proof.
  unfold dissolutionContext.
  destruct (exec dissolutionPattern fullEntry) as [x|] eqn:E;
    [|split; [simpl; lia | reflexivity]].
  unfold exec, execAt in E.
  destruct (Nat.ltb_spec (String.length fullEntry) 0) as [|_]; [lia|].
  destruct (searchFrom _ _ _ _) as [[b e]|] eqn:S; [|discriminate].
  injection E as <-.
  apply (searchFrom_reaches fullEntry) in S; [|reflexivity].
  destruct S as [st0 [H0 Hm]].
  unfold dissolutionPattern in Hm. cbn [seq] in Hm.
  apply (m_reaches fullEntry (Seq _ _)) in Hm as Hm'; auto. clear Hm'.
  cbn [m] in Hm.
  apply (m_reaches fullEntry) in Hm; auto. destruct Hm as [st1 [H1 Hm]].
  unfold punctuationRun, star in Hm.
  apply (repLoop_reaches fullEntry _ _ (m_reaches fullEntry _)) in Hm; auto.
  destruct Hm as [st2 [H2 Hm]].
  unfold rep in Hm.
  apply (repLoop_class fullEntry) in Hm; auto.
  destruct Hm as [st3 [H3 [Hk [Hcaps [Hle1 [Hle2 Hall]]]]]].
  injection Hk as <-.
  unfold groupOr, group. cbn [mcaps caps setCaps find fst Nat.eqb].
  split.
  - pose proof (slice_length fullEntry (pos st2) (pos st3)). lia.
  - exact Hall.
Qed.

Lemma eventDetails_dissolution (fullEntry : string) :
  eventDetails (L1 "Disolución") fullEntry
  = Dissolution (classifyDissolution (dissolutionContext fullEntry)).
Proof.
  unfold eventDetails. cbv zeta.
  replace (String.eqb (L1 "Disolución") (L1 "Ampliación de capital") ||
           String.eqb (L1 "Disolución") (L1 "Reducción de capital"))
    with false by (vm_compute; reflexivity).
  replace (String.eqb (L1 "Disolución") "Cambio de domicilio social")
    with false by (vm_compute; reflexivity).
  replace (String.eqb (L1 "Disolución") (L1 "Cambio de denominación social"))
    with false by (vm_compute; reflexivity).
  replace (String.eqb (L1 "Disolución") (L1 "Constitución"))
    with false by (vm_compute; reflexivity).
  replace (String.eqb (L1 "Disolución") (L1 "Disolución"))
    with true by (vm_compute; reflexivity).
  reflexivity.
Qed.

Lemma ev_type_mkCorporateEvent eventType fullEntry entryDate :
  ev_type (mkCorporateEvent eventType fullEntry entryDate) = eventType /\
  ev_details (mkCorporateEvent eventType fullEntry entryDate)
  = eventDetails eventType fullEntry.
Proof.
  unfold mkCorporateEvent. destruct (categoryInfoOf eventType) as [[c l] i].
  split; reflexivity.
Qed.

Lemma extractCorporateEvents_dissolution terms fullEntry entryDate e :
  In e (extractCorporateEvents terms fullEntry entryDate) ->
  ev_type e = L1 "Disolución" ->
  ev_details e = Dissolution (classifyDissolution (dissolutionContext fullEntry)).
Proof.
  unfold extractCorporateEvents.
  destruct (isEmpty fullEntry); [intros []|].
  intros Hin Htype. apply in_flat_map in Hin.
  destruct Hin as [eventType [_ Hin]].
  destruct (inb eventType officerEventTypes); [destruct Hin|].
  destruct (test (litI eventType) fullEntry); [|destruct Hin].
  destruct Hin as [<-|[]].
  destruct (ev_type_mkCorporateEvent eventType fullEntry entryDate) as [Ht Hd].
  rewrite Ht in Htype. subst eventType. rewrite Hd.
  apply eventDetails_dissolution.
Qed.




End EventFacts.

(** ** Positions and names of the extracted officers *)

Module ExtractionFacts.
Import Parser Notions RunFacts OfficerFacts.
Local Open Scope list_scope.





Lemma mergeParsedOfficers_none pd o :
  pd_nombramientos pd = None -> pd_reelecciones pd = None ->
  pd_revocaciones pd = None -> pd_ceses_dimisiones pd = None ->
  pd_administrators pd = None ->
  fst (mergeParsedOfficers pd o) = o.
Proof.
  intros H1 H2 H3 H4 H5. unfold mergeParsedOfficers.
  rewrite H1, H2, H3, H4, H5. now destruct o.
Qed.

Lemma ensures_optional_parseEntry terms (b : bool) (entry : option string) :
  ensures (if b then
             match entry with
             | Some e => r <- parseEntry terms e ;; ret (Some r)
             | None => ret None
             end
           else ret None)
          (fun p => match p with
                    | Some r => soundResult terms r
                    | None => True
                    end).
Proof.
  destruct b; [|apply ensures_ret; exact I].
  destruct entry as [e|]; [|apply ensures_ret; exact I].
  eapply ensures_bind; [apply ensures_parseEntry|].
  intros r Hr. apply ensures_ret. exact Hr.
Qed.

Lemma parseCompany_officers terms (fields : RawData) :
  noParsedOfficers (JObject fields) ->
  ensures (parseCompany terms fields)
          (fun r => soundOfficers terms (cd_officers (fst r))).
Proof.
  intros Hno. unfold parseCompany. cbv zeta.
  eapply ensures_bind; [apply ensures_optional_parseEntry|].
  intros parsed Hparsed.
  assert (H1 : soundOfficers terms
                 match parsed with Some r => officers r | None => noOfficers end).
  { destruct parsed; [exact Hparsed | apply sound_noOfficers]. }
  eapply ensures_bind; [apply ensures_optional_parseEntry|].
  intros fallback Hfallback. apply ensures_ret. cbn [cd_officers fst].
  destruct fallback as [r|]; [exact Hfallback|].
  simpl in Hno. destruct (parsed_details fields) as [pd|]; [|exact H1].
  destruct (_ =? 0)%nat; [|exact H1].
  destruct Hno as [N1 [N2 [N3 [N4 N5]]]].
  pose proof (mergeParsedOfficers_none pd
                match parsed with Some r => officers r | None => noOfficers end
                N1 N2 N3 N4 N5) as Hm.
  destruct (mergeParsedOfficers pd _) as [o d']. cbn [fst] in *.
  subst o. exact H1.
Qed.



End ExtractionFacts.

(** ** Segmentation and malformed input *)

Module EntryFacts.
Import Parser Notions RunFacts.
Local Open Scope list_scope.

(** C2 at the failing input.  An abbreviation, a date and a decimal
    number come back whole from the segmentation; the registry reference
    of the source's own comment does not: its date was protected first,
    the reference that contains it second, and the placeholders are
    restored in the order of protection, so the date is looked for before
    the reference is back and its placeholder stays in the section. *)
Theorem smartSplit_nested_registry_date :
  smartSplitBormeEntry "Adm. Solid.: JUAN PEREZ. Fecha 29.08.25. Capital 3.000,00 Euros."
    = ["Adm. Solid.: JUAN PEREZ"; "Fecha 29.08.25"; "Capital 3.000,00 Euros"] /\
  protectAll "S 8 , H A 200035, I/A 1 (29.08.25)."
    = ("###PLACEHOLDER1###",
       ["29.08.25"; "S 8 , H A 200035, I/A 1 (###PLACEHOLDER0###)."]) /\
  smartSplitBormeEntry "S 8 , H A 200035, I/A 1 (29.08.25)."
    = ["S 8 , H A 200035, I/A 1 (###PLACEHOLDER0###)."] /\
  forallb (fun section => negb (includes section "29.08.25"))
          (smartSplitBormeEntry "S 8 , H A 200035, I/A 1 (29.08.25).") = true.
Proof. repeat split; vm_compute; reflexivity. Qed.

(** C4 at the failing input.  [parseBormeEntry] returns its empty
    structure for [null] and for the empty string, and
    [parseSpanishCompanyData] returns the default structure, with empty
    officer and event lists, for the empty string and for an object
    without fields; for [null] and [undefined] it throws, because its
    first statement reads [rawData.full_entry]. *)
Theorem parseSpanishCompanyData_null_throws (terms : Terms) (li : nat) :
  value (parseBormeEntry terms None li) = EmptyEntry /\
  value (parseBormeEntry terms (Some "") li) = EmptyEntry /\
  value (parseSpanishCompanyData terms (JString "") li)
    = Returns (defaultCompany, JString "") /\
  value (parseSpanishCompanyData terms (JObject noFields) li)
    = Returns (defaultCompany, JObject noFields) /\
  value (parseSpanishCompanyData terms JNull li)
    = Throws "TypeError: Cannot read properties of null (reading 'full_entry')" /\
  value (parseSpanishCompanyData terms JUndefined li)
    = Throws "TypeError: Cannot read properties of undefined (reading 'full_entry')".
Proof. repeat split. Qed.

End EntryFacts.

(** ** A worked timeline *)

Module TimelineFacts.
Import Service Notions ServiceFacts.
Local Open Scope list_scope.


End TimelineFacts.
